(** * SRNet (model.py): a shallow embedding of the network graph

    The file follows [model.py] class by class.  A tensor is a rank-4
    array (batch, channel, height, width) of real numbers; every
    [nn.Module] of the source becomes a record (or a value of the
    inductive [nn.Module] for the built-in layers), its [__init__]
    a function that builds the record from the constructor arguments and
    a state dict, and its [forward] a function into [option]: [None]
    stands for the exception raised on a structural mismatch (a channel
    count a layer was not built for, extents that cannot be concatenated
    or broadcast, an extent that would not be positive, an index past the
    end of the list of skip maps) and for the refusals of the tensor
    runtime (a convolution without output channels or with a dilation of
    0; in training mode, the batch normalization of a tensor that has a
    single value per channel).

    The layers of the tensor runtime are given by their documented
    arithmetic over the reals, in training mode (batch statistics) and in
    evaluation mode (running statistics).  Rounding, overflow and the
    update of the running statistics, which no output of the same call
    reads, are outside the model. *)

From Stdlib Require Import Reals Lra Lia Arith ZArith Zify ZifyNat List String Bool.
Import ListNotations.
Open Scope string_scope.
Open Scope nat_scope.

(** ** Fallible computations *)

Definition bind {A B : Type} (m : option A) (f : A -> option B) : option B :=
  match m with
  | Some a => f a
  | None => None
  end.

Notation "x <- m ;; k" := (bind m (fun x => k))
  (at level 61, m at next level, right associativity).
Notation "' pat <- m ;; k" := (bind m (fun x => let 'pat := x in k))
  (at level 61, pat pattern, m at next level, right associativity).

(** [returns m P]: the computation [m] yields a value, and it satisfies [P]. *)
Definition returns {A : Type} (m : option A) (P : A -> Prop) : Prop :=
  exists a, m = Some a /\ P a.

(** ** Tensors *)

Record Tensor : Type := mkTensor {
  dimN : nat;
  dimC : nat;
  dimH : nat;
  dimW : nat;
  data : nat -> nat -> nat -> nat -> R
}.

Definition shape (t : Tensor) : nat * nat * nat * nat :=
  (dimN t, dimC t, dimH t, dimW t).

(** Every element (of any index) lies between [lo] and [hi]. *)
Definition bounded (lo hi : R) (t : Tensor) : Prop :=
  forall n c h w, (lo <= data t n c h w <= hi)%R.

(** [rsum n f] is [f 0 + ... + f (n-1)]. *)
Fixpoint rsum (n : nat) (f : nat -> R) : R :=
  match n with
  | O => 0%R
  | S k => (rsum k f + f k)%R
  end.

(** A state dict: parameter and buffer tensors by qualified name (unused
    trailing indices are 0), and the [training] flag of each module. *)
Record StateDict : Type := mkStateDict {
  tensors : string -> nat -> nat -> nat -> nat -> R;
  training : string -> bool
}.

Definition vec (sd : StateDict) (name : string) : nat -> R :=
  fun c => tensors sd name c 0 0 0.

(** ** The tensor runtime *)

Module torch.

(** [torch.cat([a, b], dim=1)]: all extents but the channel one must agree. *)
Definition cat (a b : Tensor) : option Tensor :=
  if (dimN a =? dimN b) && (dimH a =? dimH b) && (dimW a =? dimW b)
  then Some (mkTensor (dimN a) (dimC a + dimC b) (dimH a) (dimW a)
               (fun n c h w => if c <? dimC a then data a n c h w
                               else data b n (c - dimC a) h w))
  else None.

(** One extent of a broadcast: equal extents, or one of them is 1. *)
Definition broadcast (p q : nat) : option nat :=
  if p =? q then Some p
  else if p =? 1 then Some q
  else if q =? 1 then Some p
  else None.

Definition bidx (extent i : nat) : nat := if extent =? 1 then 0 else i.

(** [a + b] with broadcasting. *)
Definition add (a b : Tensor) : option Tensor :=
  n' <- broadcast (dimN a) (dimN b) ;;
  c' <- broadcast (dimC a) (dimC b) ;;
  h' <- broadcast (dimH a) (dimH b) ;;
  w' <- broadcast (dimW a) (dimW b) ;;
  Some (mkTensor n' c' h' w'
          (fun n c h w =>
             (data a (bidx (dimN a) n) (bidx (dimC a) c) (bidx (dimH a) h) (bidx (dimW a) w)
              + data b (bidx (dimN b) n) (bidx (dimC b) c) (bidx (dimH b) h) (bidx (dimW b) w))%R)).

(** Element-wise application of a scalar function. *)
Definition pointwise (f : R -> R) (x : Tensor) : Tensor :=
  mkTensor (dimN x) (dimC x) (dimH x) (dimW x)
    (fun n c h w => f (data x n c h w)).

End torch.

Module F.

Definition negative_slope : R := (1 / 100)%R.

Definition leaky_relu_scalar (v : R) : R :=
  if Rlt_dec 0 v then v else (v * negative_slope)%R.

Definition sigmoid_scalar (v : R) : R := (1 / (1 + exp (- v)))%R.

Definition leaky_relu (x : Tensor) : Tensor := torch.pointwise leaky_relu_scalar x.
Definition sigmoid (x : Tensor) : Tensor := torch.pointwise sigmoid_scalar x.
Definition tanh (x : Tensor) : Tensor := torch.pointwise Rtrigo_def.tanh x.

(** Output extent of a convolution along one axis; a stride or a
    dilation of 0 is refused. *)
Definition conv_out (i k s p d : nat) : option nat :=
  if (s =? 0) || (d =? 0) || (i + 2 * p <? d * (k - 1) + 1) then None
  else Some ((i + 2 * p - d * (k - 1) - 1) / s + 1).

(** Output extent of a transposed convolution along one axis. *)
Definition conv_transpose_out (i k s p op d : nat) : option nat :=
  if (i =? 0) || (s =? 0) || (d =? 0) || ((i - 1) * s + d * (k - 1) + op + 1 <=? 2 * p)
  then None
  else Some ((i - 1) * s + d * (k - 1) + op + 1 - 2 * p).

(** The input seen through zero padding [p]. *)
Definition padded (p : nat) (x : Tensor) (n c a b : nat) : R :=
  if (p <=? a) && (a <? p + dimH x) && (p <=? b) && (b <? p + dimW x)
  then data x n c (a - p) (b - p) else 0%R.

(** Cross-correlation of the zero-padded input with [weight]
    (out_channels, in_channels, k, k), plus [bias].  A layer without
    output channels is refused; a layer without input channels, on an
    input without channels, yields a tensor without channels. *)
Definition conv2d (x : Tensor) (weight : nat -> nat -> nat -> nat -> R) (bias : nat -> R)
    (in_channels out_channels k s p d : nat) : option Tensor :=
  if (dimC x =? in_channels) && negb (out_channels =? 0) then
    h' <- conv_out (dimH x) k s p d ;;
    w' <- conv_out (dimW x) k s p d ;;
    Some (mkTensor (dimN x) (if in_channels =? 0 then 0 else out_channels) h' w'
            (fun n co i j =>
               (bias co +
                rsum in_channels (fun ci =>
                rsum k (fun ki =>
                rsum k (fun kj =>
                  weight co ci ki kj * padded p x n ci (i * s + ki * d) (j * s + kj * d)))))%R))
  else None.

(** Transposed convolution: input element (i, j) contributes to the
    outputs (i * s + ki * d - p, j * s + kj * d - p); [weight] is
    (in_channels, out_channels, k, k). *)
Definition conv_transpose2d (x : Tensor) (weight : nat -> nat -> nat -> nat -> R)
    (bias : nat -> R) (in_channels out_channels k s p op d : nat) : option Tensor :=
  if dimC x =? in_channels then
    h' <- conv_transpose_out (dimH x) k s p op d ;;
    w' <- conv_transpose_out (dimW x) k s p op d ;;
    Some (mkTensor (dimN x) out_channels h' w'
            (fun n co a b =>
               (bias co +
                rsum in_channels (fun ci =>
                rsum (dimH x) (fun i =>
                rsum (dimW x) (fun j =>
                rsum k (fun ki =>
                rsum k (fun kj =>
                  if (a + p =? i * s + ki * d) && (b + p =? j * s + kj * d)
                  then data x n ci i j * weight ci co ki kj else 0))))))%R))
  else None.

Definition eps : R := (1 / 100000)%R.

(** Mean and (biased) variance of channel [c] over batch and space. *)
Definition batch_mean (x : Tensor) (c : nat) : R :=
  (rsum (dimN x) (fun n => rsum (dimH x) (fun h => rsum (dimW x) (fun w =>
     data x n c h w)))
   / INR (dimN x * dimH x * dimW x))%R.

Definition batch_var (x : Tensor) (c : nat) : R :=
  (rsum (dimN x) (fun n => rsum (dimH x) (fun h => rsum (dimW x) (fun w =>
     (data x n c h w - batch_mean x c) * (data x n c h w - batch_mean x c))))
   / INR (dimN x * dimH x * dimW x))%R.

(** Batch normalization: with the statistics of the batch in training
    mode, with the running statistics in evaluation mode.  In training
    mode a tensor with a single value per channel (N * H * W = 1) is
    refused; a tensor without elements passes, whatever its channel
    count. *)
Definition batch_norm (x : Tensor) (running_mean running_var weight bias : nat -> R)
    (num_features : nat) (train : bool) : option Tensor :=
  if train && (dimN x * dimH x * dimW x =? 1) then None
  else if (dimN x * dimC x * dimH x * dimW x =? 0) || (dimC x =? num_features) then
    let mean := if train then batch_mean x else running_mean in
    let var := if train then batch_var x else running_var in
    Some (mkTensor (dimN x) (dimC x) (dimH x) (dimW x)
            (fun n c h w =>
               ((data x n c h w - mean c) / sqrt (var c + eps) * weight c + bias c)%R))
  else None.

End F.

(** ** Built-in layers *)

Module nn.

#[warnings="-register-all"]
Inductive Module : Type :=
| Conv2d (in_channels out_channels kernel_size stride padding dilation : nat)
         (weight : nat -> nat -> nat -> nat -> R) (bias : nat -> R)
| ConvTranspose2d (in_channels out_channels kernel_size stride padding
                   output_padding dilation : nat)
         (weight : nat -> nat -> nat -> nat -> R) (bias : nat -> R)
| BatchNorm2d (num_features : nat)
         (weight bias running_mean running_var : nat -> R) (train : bool)
| LeakyReLU
| Sigmoid
| Tanh
| Sequential (layers : list Module)
| SpectralNorm (module : Module) (sigma : R).

(** Modelled from the spec: [SpectralNorm] lives in [spectral_norm.py],
    which is not part of the sources at hand.  Following the
    specification (a per-layer weight rescaling), it runs the wrapped
    convolution with every weight divided by [sigma], the layer's current
    estimate of the largest singular value of its weight matrix. *)
Definition rescale (sigma : R) (weight : nat -> nat -> nat -> nat -> R)
  : nat -> nat -> nat -> nat -> R :=
  fun a b c d => (weight a b c d / sigma)%R.

Fixpoint forward (m : Module) (x : Tensor) : option Tensor :=
  match m with
  | Conv2d cin cout k s p d weight bias =>
      F.conv2d x weight bias cin cout k s p d
  | ConvTranspose2d cin cout k s p op d weight bias =>
      F.conv_transpose2d x weight bias cin cout k s p op d
  | BatchNorm2d nf weight bias running_mean running_var train =>
      F.batch_norm x running_mean running_var weight bias nf train
  | LeakyReLU => Some (F.leaky_relu x)
  | Sigmoid => Some (F.sigmoid x)
  | Tanh => Some (F.tanh x)
  | Sequential layers =>
      (fix run (ls : list Module) (x : Tensor) : option Tensor :=
         match ls with
         | [] => Some x
         | l :: ls' => y <- forward l x ;; run ls' y
         end) layers x
  | SpectralNorm module sigma =>
      match module with
      | Conv2d cin cout k s p d weight bias =>
          F.conv2d x (rescale sigma weight) bias cin cout k s p d
      | _ => forward module x
      end
  end.

(** The layers as [model.py] constructs them: defaults as in the runtime
    ([stride=1], [padding=0], [dilation=1], [output_padding=0]), weights
    and buffers read from the state dict under the module's name. *)
Definition conv (sd : StateDict) (name : string)
    (in_channels out_channels kernel_size stride padding dilation : nat) : Module :=
  Conv2d in_channels out_channels kernel_size stride padding dilation
    (tensors sd (name ++ ".weight")) (vec sd (name ++ ".bias")).

Definition conv_transpose (sd : StateDict) (name : string)
    (in_channels out_channels kernel_size stride padding output_padding : nat) : Module :=
  ConvTranspose2d in_channels out_channels kernel_size stride padding output_padding 1
    (tensors sd (name ++ ".weight")) (vec sd (name ++ ".bias")).

Definition batch_norm (sd : StateDict) (name : string) (num_features : nat) : Module :=
  BatchNorm2d num_features
    (vec sd (name ++ ".weight")) (vec sd (name ++ ".bias"))
    (vec sd (name ++ ".running_mean")) (vec sd (name ++ ".running_var"))
    (training sd name).

Definition spectral_norm (sd : StateDict) (name : string) (module : Module) : Module :=
  SpectralNorm module (tensors sd (name ++ ".sigma") 0 0 0 0).

End nn.

(** ** model.py *)

Module Residual.

Record t : Type := mk { conv : nn.Module; bn : nn.Module }.

Definition __init__ (sd : StateDict) (name : string) (in_dim : nat) : t :=
  let temp_channels := in_dim / 4 in
  {| conv := nn.Sequential
       [ nn.conv sd (name ++ "conv.0") in_dim temp_channels 1 1 0 1;
         nn.LeakyReLU;
         nn.conv sd (name ++ "conv.2") temp_channels temp_channels 3 1 1 1;
         nn.LeakyReLU;
         nn.conv sd (name ++ "conv.4") temp_channels in_dim 1 1 0 1 ];
     bn := nn.batch_norm sd (name ++ "bn") in_dim |}.

Definition forward (self : t) (x : Tensor) : option Tensor :=
  c <- nn.forward (conv self) x ;;
  out <- torch.add c x ;;
  b <- nn.forward (bn self) out ;;
  Some (F.leaky_relu b).

End Residual.

Module ResNet.

(** [layer] is an [nn.Sequential] of [Residual] modules. *)
Record t : Type := mk { layer : list Residual.t }.

Definition __init__ (sd : StateDict) (name : string) (in_dim : nat) : t :=
  {| layer := [ Residual.__init__ sd (name ++ "layer.0.") in_dim;
                Residual.__init__ sd (name ++ "layer.1.") in_dim;
                Residual.__init__ sd (name ++ "layer.2.") in_dim;
                Residual.__init__ sd (name ++ "layer.3.") in_dim ] |}.

Fixpoint run (ls : list Residual.t) (x : Tensor) : option Tensor :=
  match ls with
  | [] => Some x
  | l :: ls' => y <- Residual.forward l x ;; run ls' y
  end.

Definition forward (self : t) (x : Tensor) : option Tensor :=
  run (layer self) x.

End ResNet.

Definition conv_bn_relu (sd : StateDict) (name : string)
    (in_channels out_channels : nat) : nn.Module :=
  nn.Sequential [ nn.conv sd (name ++ ".0") in_channels out_channels 3 1 1 1;
                  nn.batch_norm sd (name ++ ".1") out_channels;
                  nn.LeakyReLU ].


Module EncoderNet.

Record t : Type := mk { l1 : nn.Module; l2 : nn.Module; l3 : nn.Module; l4 : nn.Module }.

Definition __init__ (sd : StateDict) (name : string) (in_dim : nat) : t :=
  let layer1 := [ conv_bn_relu sd (name ++ "l1.0") in_dim 32;
                  conv_bn_relu sd (name ++ "l1.1") 32 32 ] in
  let layer2 := [ nn.conv sd (name ++ "l2.0") 32 64 3 2 1 1;
                  nn.LeakyReLU;
                  conv_bn_relu sd (name ++ "l2.2") 64 64;
                  conv_bn_relu sd (name ++ "l2.3") 64 64 ] in
  let layer3 := [ nn.conv sd (name ++ "l3.0") 64 128 3 2 1 1;
                  nn.LeakyReLU;
                  conv_bn_relu sd (name ++ "l3.2") 128 128;
                  conv_bn_relu sd (name ++ "l3.3") 128 128 ] in
  let layer4 := [ nn.conv sd (name ++ "l4.0") 128 256 3 2 1 1;
                  nn.LeakyReLU;
                  conv_bn_relu sd (name ++ "l4.2") 256 256;
                  conv_bn_relu sd (name ++ "l4.3") 256 256 ] in
  {| l1 := nn.Sequential layer1;
     l2 := nn.Sequential layer2;
     l3 := nn.Sequential layer3;
     l4 := nn.Sequential layer4 |}.

(** The result is the final map alone, or the final map with the list of
    skip maps, according to [get_feature_map]. *)
Definition result (get_feature_map : bool) : Type :=
  if get_feature_map then (Tensor * list Tensor)%type else Tensor.

Definition forward (self : t) (x : Tensor) (get_feature_map : bool)
  : option (result get_feature_map) :=
  out <- nn.forward (l1 self) x ;;
  out <- nn.forward (l2 self) out ;;
  let f1 := out in
  out <- nn.forward (l3 self) out ;;
  let f2 := out in
  out <- nn.forward (l4 self) out ;;
  match get_feature_map return option (result get_feature_map) with
  | true => Some (out, [f2; f1])
  | false => Some out
  end.

End EncoderNet.

(** Python truthiness of an optional list, and indexing with [IndexError]. *)
Definition truthy {A : Type} (l : option (list A)) : bool :=
  match l with
  | Some (_ :: _) => true
  | _ => false
  end.

Definition getitem {A : Type} (l : option (list A)) (k : nat) : option A :=
  match l with
  | Some xs => nth_error xs k
  | None => None
  end.

Module DecoderNet.

Record t : Type := mk {
  conv1 : nn.Module; deconv1 : nn.Module;
  conv2 : nn.Module; deconv2 : nn.Module;
  conv3 : nn.Module; deconv3 : nn.Module;
  conv4 : nn.Module
}.

(** [feature_map_channels] is [None] or a triple of widths. *)
Definition __init__ (sd : StateDict) (name : string) (in_dim : nat)
    (feature_map_channels : option (nat * nat * nat)) : t :=
  let '(f1, f2, f3) :=
    match feature_map_channels with
    | Some fs => fs
    | None => (0, 0, 0)
    end in
  let cat_channels1 := in_dim + f1 in
  let cat_channels2 := 128 + f2 in
  let cat_channels3 := 64 + f3 in
  {| conv1 := nn.Sequential [ conv_bn_relu sd (name ++ "conv1.0") cat_channels1 256;
                              conv_bn_relu sd (name ++ "conv1.1") 256 256 ];
     deconv1 := nn.Sequential [ nn.conv_transpose sd (name ++ "deconv1.0") 256 128 3 2 1 1;
                                nn.LeakyReLU ];
     conv2 := nn.Sequential [ conv_bn_relu sd (name ++ "conv2.0") cat_channels2 128;
                              conv_bn_relu sd (name ++ "conv2.1") 128 128 ];
     deconv2 := nn.Sequential [ nn.conv_transpose sd (name ++ "deconv2.0") 128 64 3 2 1 1;
                                nn.LeakyReLU ];
     conv3 := nn.Sequential [ conv_bn_relu sd (name ++ "conv3.0") cat_channels3 64;
                              conv_bn_relu sd (name ++ "conv3.1") 64 64 ];
     deconv3 := nn.Sequential [ nn.conv_transpose sd (name ++ "deconv3.0") 64 32 3 2 1 1;
                                nn.LeakyReLU ];
     conv4 := nn.Sequential [ conv_bn_relu sd (name ++ "conv4.0") 32 32;
                              conv_bn_relu sd (name ++ "conv4.1") 32 32 ] |}.

Definition result (get_feature_map : bool) : Type :=
  if get_feature_map then (Tensor * list Tensor)%type else Tensor.

(** [if fuse and fuse[k] is not None: x = torch.cat([x, fuse[k]], dim=1)] *)
Definition cat_fuse (x : Tensor) (fuse : option (list (option Tensor))) (k : nat)
  : option Tensor :=
  if truthy fuse then
    f <- getitem fuse k ;;
    match f with
    | Some s => torch.cat x s
    | None => Some x
    end
  else Some x.

Definition forward (self : t) (x : Tensor) (fuse : option (list (option Tensor)))
    (get_feature_map : bool) : option (result get_feature_map) :=
  x <- cat_fuse x fuse 0 ;;
  out <- nn.forward (conv1 self) x ;;
  let f1 := out in
  out <- nn.forward (deconv1 self) out ;;
  out <- cat_fuse out fuse 1 ;;
  out <- nn.forward (conv2 self) out ;;
  let f2 := out in
  out <- nn.forward (deconv2 self) out ;;
  out <- cat_fuse out fuse 2 ;;
  out <- nn.forward (conv3 self) out ;;
  let f3 := out in
  out <- nn.forward (deconv3 self) out ;;
  out <- nn.forward (conv4 self) out ;;
  match get_feature_map return option (result get_feature_map) with
  | true => Some (out, [f1; f2; f3])
  | false => Some out
  end.

End DecoderNet.

Module TextConversionNet.

(** [t_encoder] and [s_encoder] are [nn.Sequential(EncoderNet, ResNet)];
    [sk_decoder] is [nn.Sequential(DecoderNet, Conv2d, Sigmoid)]. *)
Record t : Type := mk {
  t_encoder : EncoderNet.t * ResNet.t;
  s_encoder : EncoderNet.t * ResNet.t;
  sk_decoder : DecoderNet.t * nn.Module * nn.Module;
  t_decoder : DecoderNet.t;
  t_conv : nn.Module;
  last : nn.Module
}.

Definition __init__ (sd : StateDict) (name : string) (in_dim : nat) : t :=
  {| t_encoder := (EncoderNet.__init__ sd (name ++ "t_encoder.0.") in_dim,
                   ResNet.__init__ sd (name ++ "t_encoder.1.") 256);
     s_encoder := (EncoderNet.__init__ sd (name ++ "s_encoder.0.") in_dim,
                   ResNet.__init__ sd (name ++ "s_encoder.1.") 256);
     sk_decoder := (DecoderNet.__init__ sd (name ++ "sk_decoder.0.") (2 * 256) None,
                    nn.conv sd (name ++ "sk_decoder.1") 32 1 3 1 1 1,
                    nn.Sigmoid);
     t_decoder := DecoderNet.__init__ sd (name ++ "t_decoder.") (2 * 256) None;
     t_conv := conv_bn_relu sd (name ++ "t_conv") (32 + 1) (32 + 1);
     last := nn.Sequential [ nn.conv sd (name ++ "last.0") (32 + 1) 3 3 1 1 1;
                             nn.Tanh ] |}.

Definition encode (e : EncoderNet.t * ResNet.t) (x : Tensor) : option Tensor :=
  let '(enc, res) := e in
  y <- EncoderNet.forward enc x false ;;
  ResNet.forward res y.

Definition decode_sk (d : DecoderNet.t * nn.Module * nn.Module) (x : Tensor)
  : option Tensor :=
  let '(dec, c, s) := d in
  y <- DecoderNet.forward dec x None false ;;
  y <- nn.forward c y ;;
  nn.forward s y.

Definition forward (self : t) (x_t x_s : Tensor) : option (Tensor * Tensor) :=
  out_t <- encode (t_encoder self) x_t ;;
  out_s <- encode (s_encoder self) x_s ;;
  out <- torch.cat out_t out_s ;;
  out_sk <- decode_sk (sk_decoder self) out ;;
  out_t <- DecoderNet.forward (t_decoder self) out None false ;;
  out_t <- torch.cat out_sk out_t ;;
  out_t <- nn.forward (t_conv self) out_t ;;
  l <- nn.forward (last self) out_t ;;
  Some (out_sk, l).

End TextConversionNet.

Module BackgroundInpaintingNet.

Record t : Type := mk {
  encoder : EncoderNet.t;
  resnet : ResNet.t;
  decoder : DecoderNet.t;
  last : nn.Module
}.

Definition __init__ (sd : StateDict) (name : string) (in_dim : nat) : t :=
  {| encoder := EncoderNet.__init__ sd (name ++ "encoder.") in_dim;
     resnet := ResNet.__init__ sd (name ++ "resnet.") 256;
     decoder := DecoderNet.__init__ sd (name ++ "decoder.") 256 (Some (0, 128, 64));
     last := nn.Sequential [ nn.conv sd (name ++ "last.0") 32 3 3 1 1 1;
                             nn.Tanh ] |}.

Definition forward (self : t) (x : Tensor) : option (Tensor * list Tensor) :=
  '(out, f_encoder) <- EncoderNet.forward (encoder self) x true ;;
  out <- ResNet.forward (resnet self) out ;;
  '(out, fuse) <- DecoderNet.forward (decoder self) out
                    (Some (None :: map Some f_encoder)) true ;;
  l <- nn.forward (last self) out ;;
  Some (l, fuse).

End BackgroundInpaintingNet.

Module FusionNet.

Record t : Type := mk {
  encoder : EncoderNet.t;
  resnet : ResNet.t;
  decoder : DecoderNet.t;
  last : nn.Module
}.

Definition __init__ (sd : StateDict) (name : string) (in_dim : nat) : t :=
  {| encoder := EncoderNet.__init__ sd (name ++ "encoder.") in_dim;
     resnet := ResNet.__init__ sd (name ++ "resnet.") 256;
     decoder := DecoderNet.__init__ sd (name ++ "decoder.") 256 (Some (256, 128, 64));
     last := nn.Sequential [ nn.conv sd (name ++ "last.0") 32 3 3 1 1 1;
                             nn.Tanh ] |}.

Definition forward (self : t) (x : Tensor) (fuse : option (list (option Tensor)))
  : option Tensor :=
  out <- EncoderNet.forward (encoder self) x false ;;
  out <- ResNet.forward (resnet self) out ;;
  out <- DecoderNet.forward (decoder self) out fuse false ;;
  nn.forward (last self) out.

End FusionNet.

Module NewFusionNet.

Record t : Type := mk {
  encoder : EncoderNet.t;
  resnet : ResNet.t;
  decoder : DecoderNet.t;
  last : nn.Module
}.

Definition __init__ (sd : StateDict) (name : string) (in_dim : nat) : t :=
  {| encoder := EncoderNet.__init__ sd (name ++ "encoder.") in_dim;
     resnet := ResNet.__init__ sd (name ++ "resnet.") 256;
     decoder := DecoderNet.__init__ sd (name ++ "decoder.") 256 None;
     last := nn.Sequential [ nn.conv sd (name ++ "last.0") 32 3 3 1 1 1;
                             nn.Tanh ] |}.

Definition forward (self : t) (t_t t_b : Tensor) : option Tensor :=
  out <- torch.cat t_t t_b ;;
  out <- EncoderNet.forward (encoder self) out false ;;
  out <- ResNet.forward (resnet self) out ;;
  out <- DecoderNet.forward (decoder self) out None false ;;
  nn.forward (last self) out.

End NewFusionNet.

Module Generator.

Record t : Type := mk {
  text_conversion_net : TextConversionNet.t;
  background_inpainting_net : BackgroundInpaintingNet.t;
  fusion_net : FusionNet.t
}.

Definition __init__ (sd : StateDict) (name : string) (in_dim : nat) : t :=
  {| text_conversion_net := TextConversionNet.__init__ sd (name ++ "text_conversion_net.") in_dim;
     background_inpainting_net :=
       BackgroundInpaintingNet.__init__ sd (name ++ "background_inpainting_net.") in_dim;
     fusion_net := FusionNet.__init__ sd (name ++ "fusion_net.") in_dim |}.

Definition forward (self : t) (inputs : Tensor * Tensor)
  : option (Tensor * Tensor * Tensor * Tensor) :=
  let '(i_t, i_s) := inputs in
  '(o_sk, o_t) <- TextConversionNet.forward (text_conversion_net self) i_t i_s ;;
  '(o_b, fuse) <- BackgroundInpaintingNet.forward (background_inpainting_net self) i_s ;;
  o_f <- FusionNet.forward (fusion_net self) o_t (Some (map Some fuse)) ;;
  Some (o_sk, o_t, o_b, o_f).

End Generator.

Module Discriminator.

Record t : Type := mk {
  conv1 : nn.Module; conv2 : nn.Module; conv3 : nn.Module;
  conv4 : nn.Module; conv5 : nn.Module
}.

Definition __init__ (sd : StateDict) (name : string) (in_dim : nat) : t :=
  {| conv1 := nn.Sequential [ nn.conv sd (name ++ "conv1.0") in_dim 64 3 2 1 1;
                              nn.batch_norm sd (name ++ "conv1.1") 64;
                              nn.LeakyReLU ];
     conv2 := nn.Sequential [ nn.conv sd (name ++ "conv2.0") 64 128 3 2 1 1;
                              nn.batch_norm sd (name ++ "conv2.1") 128;
                              nn.LeakyReLU ];
     conv3 := nn.Sequential [ nn.conv sd (name ++ "conv3.0") 128 256 3 2 1 1;
                              nn.batch_norm sd (name ++ "conv3.1") 256;
                              nn.LeakyReLU ];
     conv4 := nn.Sequential [ nn.conv sd (name ++ "conv4.0") 256 512 3 2 1 1;
                              nn.batch_norm sd (name ++ "conv4.1") 512;
                              nn.LeakyReLU ];
     conv5 := nn.Sequential [ nn.conv sd (name ++ "conv5.0") 512 1 3 1 1 1;
                              nn.batch_norm sd (name ++ "conv5.1") 1;
                              nn.Sigmoid ] |}.

Definition forward (self : t) (x : Tensor) : option Tensor :=
  out <- nn.forward (conv1 self) x ;;
  out <- nn.forward (conv2 self) out ;;
  out <- nn.forward (conv3 self) out ;;
  out <- nn.forward (conv4 self) out ;;
  nn.forward (conv5 self) out.

(** The five stages in the order [forward] applies them. *)
Definition stages (self : t) : list nn.Module :=
  [conv1 self; conv2 self; conv3 self; conv4 self; conv5 self].

End Discriminator.

Module SNDiscriminator.

Record t : Type := mk {
  conv1 : nn.Module; conv2 : nn.Module; conv3 : nn.Module;
  conv4 : nn.Module; conv5 : nn.Module
}.

Definition __init__ (sd : StateDict) (name : string) (in_dim : nat) : t :=
  {| conv1 := nn.Sequential
       [ nn.spectral_norm sd (name ++ "conv1.0")
           (nn.conv sd (name ++ "conv1.0.module") in_dim 64 3 2 1 1);
         nn.LeakyReLU ];
     conv2 := nn.Sequential
       [ nn.spectral_norm sd (name ++ "conv2.0")
           (nn.conv sd (name ++ "conv2.0.module") 64 128 3 2 1 1);
         nn.LeakyReLU ];
     conv3 := nn.Sequential
       [ nn.spectral_norm sd (name ++ "conv3.0")
           (nn.conv sd (name ++ "conv3.0.module") 128 256 3 2 1 1);
         nn.LeakyReLU ];
     conv4 := nn.Sequential
       [ nn.spectral_norm sd (name ++ "conv4.0")
           (nn.conv sd (name ++ "conv4.0.module") 256 512 3 2 1 1);
         nn.LeakyReLU ];
     conv5 := nn.Sequential [ nn.conv sd (name ++ "conv5.0") 512 1 3 1 1 1 ] |}.

Definition forward (self : t) (x : Tensor) : option Tensor :=
  out <- nn.forward (conv1 self) x ;;
  out <- nn.forward (conv2 self) out ;;
  out <- nn.forward (conv3 self) out ;;
  out <- nn.forward (conv4 self) out ;;
  nn.forward (conv5 self) out.

End SNDiscriminator.

Module DiscriminatorMixed.

Record t : Type := mk { D1 : Discriminator.t; D2 : Discriminator.t }.

Definition __init__ (sd : StateDict) (name : string) (in_dim1 in_dim2 : nat) : t :=
  {| D1 := Discriminator.__init__ sd (name ++ "D1.") in_dim1;
     D2 := Discriminator.__init__ sd (name ++ "D2.") in_dim2 |}.

Definition forward (self : t) (inputs : Tensor * Tensor) : option (Tensor * Tensor) :=
  let '(x1, x2) := inputs in
  o1 <- Discriminator.forward (D1 self) x1 ;;
  o2 <- Discriminator.forward (D2 self) x2 ;;
  Some (o1, o2).

End DiscriminatorMixed.

(** ** Vocabulary of the statements *)

Definition has_shape (n c h w : nat) (t : Tensor) : Prop :=
  shape t = (n, c, h, w).

(** The extent left by a 3x3 convolution of stride 2 and padding 1. *)
Definition down (i : nat) : nat := (i + 1) / 2.

(** Test inputs: constant images and a state dict of zeros (modules in
    training mode, as constructed). *)
Definition zeros (n c h w : nat) : Tensor := mkTensor n c h w (fun _ _ _ _ => 0%R).
Definition ones (n c h w : nat) : Tensor := mkTensor n c h w (fun _ _ _ _ => 1%R).

Definition sd0 : StateDict :=
  mkStateDict (fun _ _ _ _ _ => 0%R) (fun _ => true).

(** *** Reading the architecture off a module *)

Inductive Kind : Type :=
| KConv | KConvTranspose | KNorm | KLeaky | KSigmoid | KTanh | KSequential | KSpectral.

Definition kind (m : nn.Module) : Kind :=
  match m with
  | nn.Conv2d _ _ _ _ _ _ _ _ => KConv
  | nn.ConvTranspose2d _ _ _ _ _ _ _ _ _ => KConvTranspose
  | nn.BatchNorm2d _ _ _ _ _ _ => KNorm
  | nn.LeakyReLU => KLeaky
  | nn.Sigmoid => KSigmoid
  | nn.Tanh => KTanh
  | nn.Sequential _ => KSequential
  | nn.SpectralNorm _ _ => KSpectral
  end.

(** The layers of a stage (an [nn.Sequential]) and their kinds, in order. *)
Definition layers (m : nn.Module) : list nn.Module :=
  match m with
  | nn.Sequential ls => ls
  | _ => [m]
  end.

Definition kinds (m : nn.Module) : list Kind := map kind (layers m).

(** Hyperparameters of a convolution:
    (in_channels, out_channels, kernel_size, stride, padding). *)
Definition conv_params (m : nn.Module) : option (nat * nat * nat * nat * nat) :=
  match m with
  | nn.Conv2d cin cout k s p _ _ _ => Some (cin, cout, k, s, p)
  | _ => None
  end.

(** The convolutions of a stage, in order. *)
Definition convs (m : nn.Module) : list (nat * nat * nat * nat * nat) :=
  flat_map (fun l => match conv_params l with Some c => [c] | None => [] end) (layers m).

Definition stage_stride (m : nn.Module) : list nat :=
  map (fun '(_, _, _, s, _) => s) (convs m).

Definition stage_channels (m : nn.Module) : list (nat * nat) :=
  map (fun '(cin, cout, _, _, _) => (cin, cout)) (convs m).

(** *** The residual unit as the specification words it

    A 1x1 convolution to C/4, leaky rectification, a 3x3 convolution at
    C/4, a 1x1 convolution back to C, with no other rectification before
    the shortcut; then the sum with the input is normalized and
    rectified.  The layers are those [Residual.__init__] builds. *)
Module ResidualAsStated.

Definition forward (sd : StateDict) (name : string) (in_dim : nat) (x : Tensor)
  : option Tensor :=
  let temp_channels := in_dim / 4 in
  a <- nn.forward (nn.conv sd (name ++ "conv.0") in_dim temp_channels 1 1 0 1) x ;;
  let a := F.leaky_relu a in
  b <- nn.forward (nn.conv sd (name ++ "conv.2") temp_channels temp_channels 3 1 1 1) a ;;
  c <- nn.forward (nn.conv sd (name ++ "conv.4") temp_channels in_dim 1 1 0 1) b ;;
  out <- torch.add c x ;;
  n <- nn.forward (nn.batch_norm sd (name ++ "bn") in_dim) out ;;
  Some (F.leaky_relu n).

(** The kinds of layers before the shortcut, as stated. *)
Definition kinds_before_shortcut : list Kind := [KConv; KLeaky; KConv; KConv].

End ResidualAsStated.

(** The residual unit with a rectification after each of the first two
    convolutions. *)
Module ResidualAmended.

Definition forward (sd : StateDict) (name : string) (in_dim : nat) (x : Tensor)
  : option Tensor :=
  let temp_channels := in_dim / 4 in
  a <- nn.forward (nn.conv sd (name ++ "conv.0") in_dim temp_channels 1 1 0 1) x ;;
  let a := F.leaky_relu a in
  b <- nn.forward (nn.conv sd (name ++ "conv.2") temp_channels temp_channels 3 1 1 1) a ;;
  let b := F.leaky_relu b in
  c <- nn.forward (nn.conv sd (name ++ "conv.4") temp_channels in_dim 1 1 0 1) b ;;
  out <- torch.add c x ;;
  n <- nn.forward (nn.batch_norm sd (name ++ "bn") in_dim) out ;;
  Some (F.leaky_relu n).

End ResidualAmended.

(** A state dict and an input that tell the two apart: evaluation mode,
    biases -1 in the first two convolutions, a last convolution that
    copies its input, and a normalization that is the identity. *)
Definition sd7 : StateDict :=
  mkStateDict
    (fun nm _ _ _ _ =>
       if String.eqb nm "conv.0.bias" then (-1)%R
       else if String.eqb nm "conv.2.bias" then (-1)%R
       else if String.eqb nm "conv.4.weight" then 1%R
       else if String.eqb nm "bn.weight" then 1%R
       else if String.eqb nm "bn.running_var" then (99999 / 100000)%R
       else 0%R)
    (fun _ => false).

(** *** The discriminator as the specification words it

    Five stride-2 stages, widths 64, 128, 256, 512, 1; normalization and
    leaky rectification in the first four stages only; a sigmoid closes
    the last. *)
Definition Discriminator_as_stated (d : Discriminator.t) : Prop :=
  map stage_stride (Discriminator.stages d) = [[2]; [2]; [2]; [2]; [2]] /\
  map (fun s => map snd (stage_channels s)) (Discriminator.stages d)
    = [[64]; [128]; [256]; [512]; [1]] /\
  map kinds (Discriminator.stages d)
    = [ [KConv; KNorm; KLeaky]; [KConv; KNorm; KLeaky]; [KConv; KNorm; KLeaky];
        [KConv; KNorm; KLeaky]; [KConv; KSigmoid] ].

(** A state dict in which every entry is 1 (the weights and the spectral
    norms of the first four stages among them), but for the last
    convolution of the module called [name]: its weights are 0 and its
    bias is [v]. *)
Definition sd_bias (name : string) (v : R) : StateDict :=
  mkStateDict
    (fun nm _ _ _ _ =>
       if String.eqb nm (name ++ "conv5.0.bias") then v
       else if String.eqb nm (name ++ "conv5.0.weight") then 0%R
       else 1%R)
    (fun _ => true).

(** The spectral norms that the four normalized stages of the
    [SNDiscriminator] called [name] divide their weights by. *)
Definition SN_sigmas (sd : StateDict) (name : string) : list R :=
  map (fun stage => tensors sd ((name ++ stage) ++ ".sigma") 0 0 0 0)
      ["conv1.0"; "conv2.0"; "conv3.0"; "conv4.0"].

(** *** The perceptual-feature extractor

    [get_vgg_model] keeps a prefix of the feature layers of the pretrained
    classifier.  The classifier comes from the vision library and its
    weights from a file: its list of feature layers, as loaded, is the
    parameter [features].  Indexing past the end raises. *)
Definition vgg_layers : list nat := [1; 6; 11; 20; 29].

(** [for i in range(count): net_list.append(features[i])], from index [i]. *)
Fixpoint collect {A : Type} (features : list A) (i count : nat) (net_list : list A)
  : option (list A) :=
  match count with
  | O => Some net_list
  | S count' =>
      f <- nth_error features i ;;
      collect features (S i) count' (net_list ++ [f])
  end.

Definition get_vgg_model {A : Type} (features : list A) : option (list A) :=
  collect features 0 (fold_right Nat.max 0 vgg_layers + 1) [].

(** *** What batch normalization needs

    In training mode the runtime refuses to normalize a tensor that has a
    single value per channel.  [ready sd n h w]: the modules are in
    evaluation mode, or a tensor of batch [n] and extents [h] x [w] has
    not exactly one value per channel.  [norm_ready sd x]: the modules are
    in evaluation mode, or the batch is of at least two, so that no layer
    meets that case whatever the extents. *)
Definition ready (sd : StateDict) (n h w : nat) : Prop :=
  (forall name, training sd name = false) \/ n * h * w <> 1.

Definition norm_ready (sd : StateDict) (x : Tensor) : Prop :=
  (forall name, training sd name = false) \/ 2 <= dimN x.

(** *** What a decoder stage accepts as its skip entry

    [fits e n c h w]: the stage was built for [c] extra channels and works
    at batch [n] and extents [h] x [w]; the entry is absent and [c] is 0,
    or it is a map of [c] channels with that batch and those extents. *)
Definition fits (e : option Tensor) (n c h w : nat) : Prop :=
  match e with
  | None => c = 0
  | Some s => shape s = (n, c, h, w)
  end.

(** * Properties *)

Ltac Zify.zify_post_hook ::= Z.div_mod_to_equations.

Section Returns.
Context {A B : Type}.

Lemma returns_some (a : A) (P : A -> Prop) : P a -> returns (Some a) P.
Proof. intros H; exists a; split; [reflexivity | exact H]. Qed.

Lemma returns_bind (m : option A) (f : A -> option B)
      (P : A -> Prop) (Q : B -> Prop) :
  returns m P -> (forall a, P a -> returns (f a) Q) -> returns (bind m f) Q.
Proof.
  intros (a & -> & Ha) Hf. simpl. apply Hf, Ha.
Qed.

Lemma returns_impl (m : option A) (P Q : A -> Prop) :
  returns m P -> (forall a, P a -> Q a) -> returns m Q.
Proof.
  intros (a & -> & Ha) HPQ. exists a; split; [reflexivity | apply HPQ, Ha].
Qed.
End Returns.

Lemma has_shape_dims n c h w t :
  has_shape n c h w t -> dimN t = n /\ dimC t = c /\ dimH t = h /\ dimW t = w.
Proof.
  unfold has_shape, shape. intros H; inversion H; auto.
Qed.

Lemma has_shape_eq n c h w h' w' t :
  has_shape n c h w t -> h = h' -> w = w' -> has_shape n c h' w' t.
Proof. intros H <- <-. exact H. Qed.

Lemma down_pos i : 1 <= i -> 1 <= down i.
Proof. unfold down. lia. Qed.

(** *** Extents of the convolutions the model uses *)

Lemma conv_out_same i : 1 <= i -> F.conv_out i 3 1 1 1 = Some i.
Proof.
  intros Hi. unfold F.conv_out. cbn [Nat.eqb orb].
  destruct (Nat.ltb_spec (i + 2 * 1) (1 * (3 - 1) + 1)) as [Hlt | _]; [lia |].
  f_equal. lia.
Qed.

Lemma conv_out_point i : 1 <= i -> F.conv_out i 1 1 0 1 = Some i.
Proof.
  intros Hi. unfold F.conv_out. cbn [Nat.eqb orb].
  destruct (Nat.ltb_spec (i + 2 * 0) (1 * (1 - 1) + 1)) as [Hlt | _]; [lia |].
  f_equal. lia.
Qed.

Lemma conv_out_down i : 1 <= i -> F.conv_out i 3 2 1 1 = Some (down i).
Proof.
  intros Hi. unfold F.conv_out, down. cbn [Nat.eqb orb].
  destruct (Nat.ltb_spec (i + 2 * 1) (1 * (3 - 1) + 1)) as [Hlt | _]; [lia |].
  f_equal. lia.
Qed.

Lemma conv_transpose_out_up i :
  1 <= i -> F.conv_transpose_out i 3 2 1 1 1 = Some (2 * i).
Proof.
  intros Hi. unfold F.conv_transpose_out.
  destruct (Nat.eqb_spec i 0) as [-> | _]; [lia |]. cbn [Nat.eqb orb].
  destruct (Nat.leb_spec ((i - 1) * 2 + 1 * (3 - 1) + 1 + 1) (2 * 1)) as [Hle | _];
    [lia |].
  f_equal. lia.
Qed.

Lemma conv2d_shape x wt b cin cout k s p d n h w h' w' :
  has_shape n cin h w x ->
  1 <= cin -> 1 <= cout ->
  F.conv_out h k s p d = Some h' ->
  F.conv_out w k s p d = Some w' ->
  returns (F.conv2d x wt b cin cout k s p d) (has_shape n cout h' w').
Proof.
  intros Hx Hcin Hcout Hh Hw. apply has_shape_dims in Hx as (<- & <- & <- & <-).
  unfold F.conv2d. rewrite Nat.eqb_refl, Hh, Hw.
  destruct (Nat.eqb_spec cout 0) as [-> | _]; [lia |].
  destruct (Nat.eqb_spec (dimC x) 0) as [E | _]; [lia |].
  cbn [negb andb bind]. apply returns_some. reflexivity.
Qed.

Lemma conv_transpose2d_shape x wt b cin cout k s p op d n h w h' w' :
  has_shape n cin h w x ->
  F.conv_transpose_out h k s p op d = Some h' ->
  F.conv_transpose_out w k s p op d = Some w' ->
  returns (F.conv_transpose2d x wt b cin cout k s p op d) (has_shape n cout h' w').
Proof.
  intros Hx Hh Hw. apply has_shape_dims in Hx as (<- & <- & <- & <-).
  unfold F.conv_transpose2d. rewrite Nat.eqb_refl, Hh, Hw. simpl.
  apply returns_some. reflexivity.
Qed.

Lemma batch_norm_shape x rm rv g b nf train n h w :
  has_shape n nf h w x ->
  train = false \/ n * h * w <> 1 ->
  returns (F.batch_norm x rm rv g b nf train) (has_shape n nf h w).
Proof.
  intros Hx Ht. apply has_shape_dims in Hx as (<- & <- & <- & <-).
  unfold F.batch_norm. rewrite Nat.eqb_refl, orb_true_r.
  assert (E : train && (dimN x * dimH x * dimW x =? 1) = false).
  { destruct Ht as [-> | Hne]; [reflexivity |].
    apply andb_false_intro2, Nat.eqb_neq, Hne. }
  rewrite E. apply returns_some. reflexivity.
Qed.

(** More values per channel keep a tensor acceptable. *)
Lemma ready_mono sd n h w h' w' :
  ready sd n h w -> 1 <= h -> 1 <= w -> h <= h' -> w <= w' -> ready sd n h' w'.
Proof.
  intros [He | Hne] Hh Hw Hhh Hww; [left; exact He | right].
  destruct n as [| n]; [lia |].
  assert (1 <= h * w) by nia. assert (h * w <= h' * w') by nia.
  assert (S n * h * w <= S n * h' * w') by nia.
  destruct n as [| n]; nia.
Qed.

Lemma norm_ready_ready sd x n h w :
  norm_ready sd x -> dimN x = n -> 1 <= h -> 1 <= w -> ready sd n h w.
Proof.
  intros [He | Hn] <- Hh Hw; [left; exact He | right].
  assert (2 <= dimN x * h) by nia. nia.
Qed.

Lemma cat_shape a b n ca cb h w :
  has_shape n ca h w a -> has_shape n cb h w b ->
  returns (torch.cat a b) (has_shape n (ca + cb) h w).
Proof.
  intros Ha Hb.
  apply has_shape_dims in Ha as (<- & <- & <- & <-).
  apply has_shape_dims in Hb as (Hn & <- & Hh & Hw).
  unfold torch.cat. rewrite Hn, Hh, Hw, !Nat.eqb_refl. simpl.
  apply returns_some. unfold has_shape, shape; simpl. congruence.
Qed.

Lemma add_shape a b n c h w :
  has_shape n c h w a -> has_shape n c h w b ->
  returns (torch.add a b) (has_shape n c h w).
Proof.
  intros Ha Hb.
  apply has_shape_dims in Ha as (<- & <- & <- & <-).
  apply has_shape_dims in Hb as (Hn & Hc & Hh & Hw).
  unfold torch.add, torch.broadcast. rewrite Hn, Hc, Hh, Hw, !Nat.eqb_refl. simpl.
  apply returns_some. reflexivity.
Qed.

(** *** Value ranges of the activations *)

Lemma frac_bounds (a b : R) :
  (0 < b -> - b <= a <= b -> -1 <= a / b <= 1)%R.
Proof.
  intros Hb [Hlo Hhi].
  assert (Hi : (0 < / b)%R) by now apply Rinv_0_lt_compat.
  assert (Hbi : (b * / b = 1)%R) by (apply Rinv_r; lra).
  unfold Rdiv. split; nra.
Qed.

Lemma sigmoid_scalar_range v : (0 <= F.sigmoid_scalar v <= 1)%R.
Proof.
  unfold F.sigmoid_scalar.
  pose proof (exp_pos (- v)) as He.
  destruct (frac_bounds 1 (1 + exp (- v))) as [_ Hhi]; [lra | lra |].
  split; [| exact Hhi].
  apply Rlt_le, Rdiv_lt_0_compat; lra.
Qed.

Lemma tanh_scalar_range v : (-1 <= Rtrigo_def.tanh v <= 1)%R.
Proof.
  unfold Rtrigo_def.tanh, sinh, cosh.
  pose proof (exp_pos v). pose proof (exp_pos (- v)).
  apply frac_bounds; lra.
Qed.

Lemma bounded_sigmoid x : bounded 0 1 (F.sigmoid x).
Proof. intros n c h w. apply sigmoid_scalar_range. Qed.

Lemma bounded_tanh x : bounded (-1) 1 (F.tanh x).
Proof. intros n c h w. apply tanh_scalar_range. Qed.

(** *** Built-in layers *)

Lemma forward_seq_nil x : nn.forward (nn.Sequential []) x = Some x.
Proof. reflexivity. Qed.

Lemma forward_seq_cons l ls x :
  nn.forward (nn.Sequential (l :: ls)) x
  = (y <- nn.forward l x ;; nn.forward (nn.Sequential ls) y).
Proof. reflexivity. Qed.

Section Layers.
Variables (sd : StateDict) (name : string).
Variables (x : Tensor) (n c h w : nat).
Hypothesis Hx : has_shape n c h w x.
Hypotheses (Hh : 1 <= h) (Hw : 1 <= w) (Hc : 1 <= c).

Lemma forward_conv_same cout :
  1 <= cout ->
  returns (nn.forward (nn.conv sd name c cout 3 1 1 1) x) (has_shape n cout h w).
Proof. intros Hcout. eapply conv2d_shape; eauto using conv_out_same. Qed.

Lemma forward_conv_point cout :
  1 <= cout ->
  returns (nn.forward (nn.conv sd name c cout 1 1 0 1) x) (has_shape n cout h w).
Proof. intros Hcout. eapply conv2d_shape; eauto using conv_out_point. Qed.

Lemma forward_conv_down cout :
  1 <= cout ->
  returns (nn.forward (nn.conv sd name c cout 3 2 1 1) x)
          (has_shape n cout (down h) (down w)).
Proof. intros Hcout. eapply conv2d_shape; eauto using conv_out_down. Qed.

Lemma forward_conv_transpose_up cout :
  returns (nn.forward (nn.conv_transpose sd name c cout 3 2 1 1) x)
          (has_shape n cout (2 * h) (2 * w)).
Proof. eapply conv_transpose2d_shape; eauto using conv_transpose_out_up. Qed.

Lemma forward_spectral_norm_down name' cout :
  1 <= cout ->
  returns (nn.forward (nn.spectral_norm sd name (nn.conv sd name' c cout 3 2 1 1)) x)
          (has_shape n cout (down h) (down w)).
Proof. intros Hcout. eapply conv2d_shape; eauto using conv_out_down. Qed.
End Layers.

Lemma forward_batch_norm sd name x n c h w :
  has_shape n c h w x ->
  ready sd n h w ->
  returns (nn.forward (nn.batch_norm sd name c) x) (has_shape n c h w).
Proof.
  intros Hx [He | Hne]; apply batch_norm_shape; auto.
Qed.

Lemma forward_leaky x n c h w :
  has_shape n c h w x -> returns (nn.forward nn.LeakyReLU x) (has_shape n c h w).
Proof. intros Hx. apply returns_some, Hx. Qed.

Lemma forward_sigmoid x n c h w :
  has_shape n c h w x ->
  returns (nn.forward nn.Sigmoid x) (fun y => has_shape n c h w y /\ bounded 0 1 y).
Proof. intros Hx. apply returns_some. split; [exact Hx | apply bounded_sigmoid]. Qed.

Lemma forward_tanh x n c h w :
  has_shape n c h w x ->
  returns (nn.forward nn.Tanh x) (fun y => has_shape n c h w y /\ bounded (-1) 1 y).
Proof. intros Hx. apply returns_some. split; [exact Hx | apply bounded_tanh]. Qed.

Create HintDb shapes.
#[local] Hint Resolve forward_conv_same forward_conv_point forward_conv_down
  forward_conv_transpose_up forward_spectral_norm_down forward_batch_norm
  forward_leaky forward_sigmoid forward_tanh down_pos : shapes.
#[local] Hint Extern 2 (_ <= _) => unfold down; lia : shapes.

(** A tensor is acceptable wherever a smaller one (of positive extents)
    is known to be. *)
Ltac ready_tac :=
  match goal with
  | H : ready ?sd ?n ?h ?w |- ready ?sd ?n ?h' ?w' =>
      apply (ready_mono sd n h w h' w' H); unfold down; lia
  end.

#[local] Hint Extern 2 (ready _ _ _ _) => ready_tac : shapes.

(** Run an [nn.Sequential] layer by layer. *)
Ltac run_seq :=
  repeat (rewrite forward_seq_cons;
          eapply returns_bind; [ solve [eauto with shapes] | intros ? ? ]);
  rewrite forward_seq_nil; apply returns_some.

(** *** Blocks of model.py *)

Lemma conv_bn_relu_shape sd name cin cout x n h w :
  has_shape n cin h w x -> 1 <= h -> 1 <= w -> 1 <= cin -> 1 <= cout ->
  ready sd n h w ->
  returns (nn.forward (conv_bn_relu sd name cin cout) x) (has_shape n cout h w).
Proof.
  intros Hx Hh Hw Hcin Hcout Hr. unfold conv_bn_relu. run_seq. assumption.
Qed.

#[local] Hint Resolve conv_bn_relu_shape : shapes.

(** The 3-channel head [nn.Sequential(Conv2d(c, 3, 3, padding=1), Tanh)]. *)
Lemma head_tanh sd name cin cout x n h w :
  has_shape n cin h w x -> 1 <= h -> 1 <= w -> 1 <= cin -> 1 <= cout ->
  returns (nn.forward (nn.Sequential [nn.conv sd name cin cout 3 1 1 1; nn.Tanh]) x)
          (fun y => has_shape n cout h w y /\ bounded (-1) 1 y).
Proof.
  intros Hx Hh Hw Hcin Hcout. run_seq. assumption.
Qed.

(** The bottleneck of a residual unit has [in_dim / 4] channels: the unit
    needs an input of at least 4 channels. *)
Lemma Residual_forward_shape sd name in_dim x n h w :
  has_shape n in_dim h w x -> 1 <= h -> 1 <= w -> 4 <= in_dim ->
  ready sd n h w ->
  returns (Residual.forward (Residual.__init__ sd name in_dim) x)
          (has_shape n in_dim h w).
Proof.
  intros Hx Hh Hw Hin Hr.
  unfold Residual.forward, Residual.__init__; cbn [Residual.conv Residual.bn].
  eapply returns_bind; [ run_seq; eassumption | intros c Hc ].
  eapply returns_bind; [ apply add_shape; eassumption | intros out Hout ].
  eapply returns_bind; [ apply forward_batch_norm; eassumption | intros b Hb ].
  apply returns_some. exact Hb.
Qed.

Lemma ResNet_forward_shape sd name in_dim x n h w :
  has_shape n in_dim h w x -> 1 <= h -> 1 <= w -> 4 <= in_dim ->
  ready sd n h w ->
  returns (ResNet.forward (ResNet.__init__ sd name in_dim) x)
          (has_shape n in_dim h w).
Proof.
  intros Hx Hh Hw Hin Hr.
  unfold ResNet.forward, ResNet.__init__; cbn [ResNet.layer ResNet.run].
  repeat (eapply returns_bind;
          [ eapply Residual_forward_shape; eassumption | intros ? ? ]).
  apply returns_some. assumption.
Qed.

(** *** EncoderNet *)

Lemma EncoderNet_forward_false self x :
  EncoderNet.forward self x false
  = (r <- EncoderNet.forward self x true ;; Some (fst r)).
Proof.
  unfold EncoderNet.forward.
  destruct (nn.forward (EncoderNet.l1 self) x) as [o1 |]; [simpl | reflexivity].
  destruct (nn.forward (EncoderNet.l2 self) o1) as [o2 |]; [simpl | reflexivity].
  destruct (nn.forward (EncoderNet.l3 self) o2) as [o3 |]; [simpl | reflexivity].
  destruct (nn.forward (EncoderNet.l4 self) o3) as [o4 |]; reflexivity.
Qed.

(** One downsampling stage: a stride-2 convolution, then two
    shape-preserving blocks. *)
Lemma stage_down_shape sd a b c cin cout x n h w :
  has_shape n cin h w x -> 1 <= h -> 1 <= w -> 1 <= cin -> 1 <= cout ->
  ready sd n (down h) (down w) ->
  returns (nn.forward (nn.Sequential [ nn.conv sd a cin cout 3 2 1 1; nn.LeakyReLU;
                                        conv_bn_relu sd b cout cout;
                                        conv_bn_relu sd c cout cout ]) x)
          (has_shape n cout (down h) (down w)).
Proof.
  intros Hx Hh Hw Hcin Hcout Hr. run_seq. assumption.
Qed.

(** The smallest maps the encoder normalizes are those of its last
    stage. *)
Lemma EncoderNet_forward_true sd name in_dim x n h w :
  has_shape n in_dim h w x -> 1 <= h -> 1 <= w -> 1 <= in_dim ->
  ready sd n (down (down (down h))) (down (down (down w))) ->
  returns (EncoderNet.forward (EncoderNet.__init__ sd name in_dim) x true)
    (fun r =>
       has_shape n 256 (down (down (down h))) (down (down (down w))) (fst r) /\
       exists f2 f1, snd r = [f2; f1] /\
         has_shape n 128 (down (down h)) (down (down w)) f2 /\
         has_shape n 64 (down h) (down w) f1).
Proof.
  intros Hx Hh Hw Hin Hr.
  unfold EncoderNet.forward, EncoderNet.__init__;
    cbn [EncoderNet.l1 EncoderNet.l2 EncoderNet.l3 EncoderNet.l4].
  assert (1 <= down h /\ 1 <= down w) as [Hh1 Hw1] by auto using down_pos.
  assert (1 <= down (down h) /\ 1 <= down (down w)) as [Hh2 Hw2] by auto using down_pos.
  eapply returns_bind; [ run_seq; eassumption | intros o1 H1 ].
  eapply returns_bind;
    [ eapply stage_down_shape; solve [eauto with shapes] | intros o2 H2 ].
  eapply returns_bind;
    [ eapply stage_down_shape; solve [eauto with shapes] | intros o3 H3 ].
  eapply returns_bind;
    [ eapply stage_down_shape; solve [eauto with shapes] | intros o4 H4 ].
  apply returns_some. split; [exact H4 |].
  exists o3, o2. auto.
Qed.

Lemma EncoderNet_forward_shape sd name in_dim x n h w :
  has_shape n in_dim h w x -> 1 <= h -> 1 <= w -> 1 <= in_dim ->
  ready sd n (down (down (down h))) (down (down (down w))) ->
  returns (EncoderNet.forward (EncoderNet.__init__ sd name in_dim) x false)
    (has_shape n 256 (down (down (down h))) (down (down (down w)))).
Proof.
  intros Hx Hh Hw Hin Hrdy. rewrite EncoderNet_forward_false.
  eapply returns_bind; [ eapply EncoderNet_forward_true; eassumption | ].
  intros r [Hr _]. apply returns_some, Hr.
Qed.

(** *** DecoderNet *)

Lemma DecoderNet_forward_false self x fuse :
  DecoderNet.forward self x fuse false
  = (r <- DecoderNet.forward self x fuse true ;; Some (fst r)).
Proof.
  unfold DecoderNet.forward.
  repeat match goal with
         | |- bind ?m _ = bind (bind ?m _) _ =>
             destruct m; [cbn [bind] | reflexivity]
         end.
  reflexivity.
Qed.

(** One upsampling stage: two shape-preserving blocks, whose output is the
    stage's feature map, then a stride-2 transposed convolution. *)
Lemma stage_conv_shape sd a b cin cout x n h w :
  has_shape n cin h w x -> 1 <= h -> 1 <= w -> 1 <= cin -> 1 <= cout ->
  ready sd n h w ->
  returns (nn.forward (nn.Sequential [ conv_bn_relu sd a cin cout;
                                        conv_bn_relu sd b cout cout ]) x)
          (has_shape n cout h w).
Proof.
  intros Hx Hh Hw Hcin Hcout Hr. run_seq. assumption.
Qed.

Lemma stage_deconv_shape sd a cin cout x n h w :
  has_shape n cin h w x -> 1 <= h -> 1 <= w ->
  returns (nn.forward (nn.Sequential [ nn.conv_transpose sd a cin cout 3 2 1 1;
                                        nn.LeakyReLU ]) x)
          (has_shape n cout (2 * h) (2 * w)).
Proof.
  intros Hx Hh Hw. run_seq. assumption.
Qed.

Section Decoder.
Variables (sd : StateDict) (name : string) (in_dim f1 f2 f3 : nat).
Variable fuse : option (list (option Tensor)).
Variables (n h w : nat).
Hypotheses (Hh : 1 <= h) (Hw : 1 <= w).
Hypothesis Hin : 1 <= in_dim + f1.
Hypothesis Hready : ready sd n h w.

(** What the caller owes: at each stage, concatenating the skip map (if
    any) yields the width the stage's first convolution was built for. *)
Hypothesis Hfuse0 : forall y, has_shape n in_dim h w y ->
  returns (DecoderNet.cat_fuse y fuse 0) (has_shape n (in_dim + f1) h w).
Hypothesis Hfuse1 : forall y, has_shape n 128 (2 * h) (2 * w) y ->
  returns (DecoderNet.cat_fuse y fuse 1) (has_shape n (128 + f2) (2 * h) (2 * w)).
Hypothesis Hfuse2 : forall y, has_shape n 64 (2 * (2 * h)) (2 * (2 * w)) y ->
  returns (DecoderNet.cat_fuse y fuse 2)
          (has_shape n (64 + f3) (2 * (2 * h)) (2 * (2 * w))).

Lemma DecoderNet_forward_true x :
  has_shape n in_dim h w x ->
  returns (DecoderNet.forward
             (DecoderNet.__init__ sd name in_dim (Some (f1, f2, f3))) x fuse true)
    (fun r =>
       has_shape n 32 (2 * (2 * (2 * h))) (2 * (2 * (2 * w))) (fst r) /\
       exists a b c, snd r = [a; b; c] /\
         has_shape n 256 h w a /\
         has_shape n 128 (2 * h) (2 * w) b /\
         has_shape n 64 (2 * (2 * h)) (2 * (2 * w)) c).
Proof.
  intros Hx.
  unfold DecoderNet.forward, DecoderNet.__init__;
    cbn [DecoderNet.conv1 DecoderNet.deconv1 DecoderNet.conv2 DecoderNet.deconv2
         DecoderNet.conv3 DecoderNet.deconv3 DecoderNet.conv4].
  eapply returns_bind; [ apply Hfuse0, Hx | intros x0 H0 ].
  eapply returns_bind;
    [ eapply stage_conv_shape; solve [eauto with shapes] | intros a Ha ].
  eapply returns_bind; [ eapply stage_deconv_shape; eassumption | intros u1 Hu1 ].
  eapply returns_bind; [ apply Hfuse1, Hu1 | intros x1 H1 ].
  eapply returns_bind;
    [ eapply stage_conv_shape; solve [eauto with shapes] | intros b Hb ].
  eapply returns_bind; [ eapply stage_deconv_shape; try eassumption; lia | intros u2 Hu2 ].
  eapply returns_bind; [ apply Hfuse2, Hu2 | intros x2 H2 ].
  eapply returns_bind;
    [ eapply stage_conv_shape; solve [eauto with shapes] | intros c Hc ].
  eapply returns_bind; [ eapply stage_deconv_shape; try eassumption; lia | intros u3 Hu3 ].
  eapply returns_bind;
    [ eapply stage_conv_shape; solve [eauto with shapes] | intros o Ho ].
  apply returns_some. split; [exact Ho |].
  exists a, b, c. auto.
Qed.
End Decoder.

(** The decoder without skip maps, as [DecoderNet(in_dim)] is built. *)
Lemma DecoderNet_forward_plain sd name in_dim x n h w :
  has_shape n in_dim h w x -> 1 <= h -> 1 <= w -> 1 <= in_dim ->
  ready sd n h w ->
  returns (DecoderNet.forward (DecoderNet.__init__ sd name in_dim None) x None false)
    (has_shape n 32 (8 * h) (8 * w)).
Proof.
  intros Hx Hh Hw Hin Hrdy. rewrite DecoderNet_forward_false.
  change (DecoderNet.__init__ sd name in_dim None)
    with (DecoderNet.__init__ sd name in_dim (Some (0, 0, 0))).
  eapply returns_bind.
  - eapply DecoderNet_forward_true with (h := h) (w := w); try eassumption; try lia;
      intros y Hy; apply returns_some.
    + rewrite Nat.add_0_r. exact Hy.
    + exact Hy.
    + exact Hy.
  - intros r [Hr _]. apply returns_some.
    eapply has_shape_eq; [exact Hr | lia | lia].
Qed.

(** Encoder, then decoder, on any image: each extent comes back rounded up
    to a multiple of 8. *)
Lemma down3 h : down (down (down h)) = (h + 7) / 8.
Proof. unfold down. lia. Qed.

Lemma round_trip_extents sd_e name_e sd_d name_d in_dim x n h w :
  has_shape n in_dim h w x -> 1 <= h -> 1 <= w -> 1 <= in_dim ->
  ready sd_e n ((h + 7) / 8) ((w + 7) / 8) ->
  ready sd_d n ((h + 7) / 8) ((w + 7) / 8) ->
  returns (z <- EncoderNet.forward (EncoderNet.__init__ sd_e name_e in_dim) x false ;;
           DecoderNet.forward (DecoderNet.__init__ sd_d name_d 256 None) z None false)
    (has_shape n 32 (8 * ((h + 7) / 8)) (8 * ((w + 7) / 8))).
Proof.
  intros Hx Hh Hw Hin He Hd. rewrite <- (down3 h), <- (down3 w) in *.
  eapply returns_bind;
    [ eapply EncoderNet_forward_shape; eassumption | intros z Hz ].
  eapply DecoderNet_forward_plain; [exact Hz | | | | exact Hd]; unfold down; lia.
Qed.

(** *** Inputs whose extents are multiples of 8 *)

Lemma down_8 k : down (8 * k) = 4 * k.
Proof. unfold down. lia. Qed.

Lemma down_4 k : down (4 * k) = 2 * k.
Proof. unfold down. lia. Qed.

Lemma down_2 k : down (2 * k) = k.
Proof. unfold down. lia. Qed.

Lemma EncoderNet_forward_true_8 sd name in_dim x n hk wk :
  has_shape n in_dim (8 * hk) (8 * wk) x -> 1 <= hk -> 1 <= wk -> 1 <= in_dim ->
  ready sd n hk wk ->
  returns (EncoderNet.forward (EncoderNet.__init__ sd name in_dim) x true)
    (fun r =>
       has_shape n 256 hk wk (fst r) /\
       exists f2 f1, snd r = [f2; f1] /\
         has_shape n 128 (2 * hk) (2 * wk) f2 /\
         has_shape n 64 (4 * hk) (4 * wk) f1).
Proof.
  intros Hx Hh Hw Hin Hrdy.
  eapply returns_impl;
    [ eapply EncoderNet_forward_true; [eassumption | lia | lia | lia |];
      rewrite !down_8, !down_4, !down_2; exact Hrdy | ].
  intros r (Hr & f2 & f1 & Hfs & H2 & H1).
  rewrite !down_8, !down_4, !down_2 in Hr.
  rewrite !down_8, !down_4 in H2. rewrite !down_8 in H1.
  split; [exact Hr |]. exists f2, f1. auto.
Qed.

Lemma EncoderNet_forward_8 sd name in_dim x n hk wk :
  has_shape n in_dim (8 * hk) (8 * wk) x -> 1 <= hk -> 1 <= wk -> 1 <= in_dim ->
  ready sd n hk wk ->
  returns (EncoderNet.forward (EncoderNet.__init__ sd name in_dim) x false)
    (has_shape n 256 hk wk).
Proof.
  intros Hx Hh Hw Hin Hrdy. rewrite EncoderNet_forward_false.
  eapply returns_bind; [ eapply EncoderNet_forward_true_8; eassumption | ].
  intros r [Hr _]. apply returns_some, Hr.
Qed.

(** The decoder of [BackgroundInpaintingNet], fed the encoder's skip maps. *)
Lemma DecoderNet_forward_inpainting sd name x f2 f1 n hk wk :
  has_shape n 256 hk wk x -> 1 <= hk -> 1 <= wk -> ready sd n hk wk ->
  has_shape n 128 (2 * hk) (2 * wk) f2 ->
  has_shape n 64 (4 * hk) (4 * wk) f1 ->
  returns (DecoderNet.forward (DecoderNet.__init__ sd name 256 (Some (0, 128, 64))) x
             (Some (None :: map Some [f2; f1])) true)
    (fun r =>
       has_shape n 32 (8 * hk) (8 * wk) (fst r) /\
       exists a b c, snd r = [a; b; c] /\
         has_shape n 256 hk wk a /\
         has_shape n 128 (2 * hk) (2 * wk) b /\
         has_shape n 64 (4 * hk) (4 * wk) c).
Proof.
  intros Hx Hh Hw Hrdy H2 H1.
  eapply returns_impl.
  - eapply DecoderNet_forward_true with (h := hk) (w := wk); try eassumption; try lia;
      intros y Hy.
    + apply returns_some. exact Hy.
    + apply cat_shape; assumption.
    + apply cat_shape; [exact Hy |].
      eapply has_shape_eq; [exact H1 | lia | lia].
  - intros r (Hr & a & b & c & Hfs & Ha & Hb & Hc). split.
    + eapply has_shape_eq; [exact Hr | lia | lia].
    + exists a, b, c. repeat split; try assumption.
      eapply has_shape_eq; [exact Hc | lia | lia].
Qed.

(** The decoder of [FusionNet], fed the inpainting decoder's feature maps. *)
Lemma DecoderNet_forward_fusion sd name x a b c n hk wk :
  has_shape n 256 hk wk x -> 1 <= hk -> 1 <= wk -> ready sd n hk wk ->
  has_shape n 256 hk wk a ->
  has_shape n 128 (2 * hk) (2 * wk) b ->
  has_shape n 64 (4 * hk) (4 * wk) c ->
  returns (DecoderNet.forward (DecoderNet.__init__ sd name 256 (Some (256, 128, 64))) x
             (Some (map Some [a; b; c])) false)
    (has_shape n 32 (8 * hk) (8 * wk)).
Proof.
  intros Hx Hh Hw Hrdy Ha Hb Hc. rewrite DecoderNet_forward_false.
  eapply returns_bind.
  - eapply DecoderNet_forward_true with (h := hk) (w := wk); try eassumption; try lia;
      intros y Hy.
    + apply cat_shape; assumption.
    + apply cat_shape; assumption.
    + apply cat_shape; [exact Hy |].
      eapply has_shape_eq; [exact Hc | lia | lia].
  - intros r [Hr _]. apply returns_some.
    eapply has_shape_eq; [exact Hr | lia | lia].
Qed.

(** *** The three nets of the generator *)

Lemma encode_shape sd a b in_dim x n hk wk :
  has_shape n in_dim (8 * hk) (8 * wk) x -> 1 <= hk -> 1 <= wk -> 1 <= in_dim ->
  ready sd n hk wk ->
  returns (TextConversionNet.encode
             (EncoderNet.__init__ sd a in_dim, ResNet.__init__ sd b 256) x)
    (has_shape n 256 hk wk).
Proof.
  intros Hx Hh Hw Hin Hr. unfold TextConversionNet.encode.
  eapply returns_bind; [ eapply EncoderNet_forward_8; eassumption | intros y Hy ].
  apply ResNet_forward_shape; try assumption. lia.
Qed.

Lemma decode_sk_shape sd a b x n h w :
  has_shape n 512 h w x -> 1 <= h -> 1 <= w -> ready sd n h w ->
  returns (TextConversionNet.decode_sk
             (DecoderNet.__init__ sd a (2 * 256) None,
              nn.conv sd b 32 1 3 1 1 1, nn.Sigmoid) x)
    (fun y => has_shape n 1 (8 * h) (8 * w) y /\ bounded 0 1 y).
Proof.
  intros Hx Hh Hw Hr. unfold TextConversionNet.decode_sk.
  eapply returns_bind;
    [ eapply DecoderNet_forward_plain; try eassumption; lia | intros y Hy ].
  eapply returns_bind;
    [ eapply forward_conv_same; [eassumption | lia ..] | intros z Hz ].
  apply forward_sigmoid, Hz.
Qed.

Lemma TextConversionNet_forward_shape sd name in_dim x_t x_s n hk wk :
  has_shape n in_dim (8 * hk) (8 * wk) x_t ->
  has_shape n in_dim (8 * hk) (8 * wk) x_s ->
  1 <= hk -> 1 <= wk -> 1 <= in_dim -> ready sd n hk wk ->
  returns (TextConversionNet.forward (TextConversionNet.__init__ sd name in_dim) x_t x_s)
    (fun r =>
       (has_shape n 1 (8 * hk) (8 * wk) (fst r) /\ bounded 0 1 (fst r)) /\
       (has_shape n 3 (8 * hk) (8 * wk) (snd r) /\ bounded (-1) 1 (snd r))).
Proof.
  intros Ht Hs Hh Hw Hin Hr.
  unfold TextConversionNet.forward, TextConversionNet.__init__;
    cbn [TextConversionNet.t_encoder TextConversionNet.s_encoder
         TextConversionNet.sk_decoder TextConversionNet.t_decoder
         TextConversionNet.t_conv TextConversionNet.last].
  eapply returns_bind; [ eapply encode_shape; eassumption | intros out_t Hot ].
  eapply returns_bind; [ eapply encode_shape; eassumption | intros out_s Hos ].
  eapply returns_bind; [ eapply cat_shape; eassumption | intros out Hout ].
  eapply returns_bind; [ eapply decode_sk_shape; eassumption | intros out_sk [Hsk Hb] ].
  eapply returns_bind;
    [ eapply (DecoderNet_forward_plain sd _ (2 * 256)); try eassumption; lia
    | intros o Ho ].
  eapply returns_bind; [ eapply cat_shape; eassumption | intros o1 Ho1 ].
  eapply returns_bind;
    [ eapply (conv_bn_relu_shape sd _ (32 + 1)); [exact Ho1 | lia | lia | lia | lia |];
      ready_tac
    | intros o2 Ho2 ].
  eapply returns_bind; [ eapply head_tanh; [exact Ho2 | lia ..] | intros l Hl ].
  apply returns_some. cbn [fst snd]. auto.
Qed.

Lemma BackgroundInpaintingNet_forward_shape sd name in_dim x n hk wk :
  has_shape n in_dim (8 * hk) (8 * wk) x -> 1 <= hk -> 1 <= wk -> 1 <= in_dim ->
  ready sd n hk wk ->
  returns (BackgroundInpaintingNet.forward
             (BackgroundInpaintingNet.__init__ sd name in_dim) x)
    (fun r =>
       (has_shape n 3 (8 * hk) (8 * wk) (fst r) /\ bounded (-1) 1 (fst r)) /\
       exists a b c, snd r = [a; b; c] /\
         has_shape n 256 hk wk a /\
         has_shape n 128 (2 * hk) (2 * wk) b /\
         has_shape n 64 (4 * hk) (4 * wk) c).
Proof.
  intros Hx Hh Hw Hin Hr.
  unfold BackgroundInpaintingNet.forward, BackgroundInpaintingNet.__init__;
    cbn [BackgroundInpaintingNet.encoder BackgroundInpaintingNet.resnet
         BackgroundInpaintingNet.decoder BackgroundInpaintingNet.last].
  eapply returns_bind; [ eapply EncoderNet_forward_true_8; eassumption | ].
  intros [out f_encoder] (Hout & f2 & f1 & Hfs & H2 & H1). cbn [fst snd] in *. subst.
  eapply returns_bind;
    [ eapply ResNet_forward_shape; [eassumption | lia | lia | lia | assumption] | ].
  intros out' Hout'.
  eapply returns_bind; [ eapply DecoderNet_forward_inpainting; eassumption | ].
  intros [o fuse] (Ho & a & b & c & Hfuse & Ha & Hb & Hc). cbn [fst snd] in *. subst.
  eapply returns_bind; [ eapply head_tanh; [exact Ho | lia ..] | intros l Hl ].
  apply returns_some. cbn [fst snd]. split; [exact Hl |].
  exists a, b, c. auto.
Qed.

Lemma FusionNet_forward_shape sd name in_dim x a b c n hk wk :
  has_shape n in_dim (8 * hk) (8 * wk) x -> 1 <= hk -> 1 <= wk -> 1 <= in_dim ->
  ready sd n hk wk ->
  has_shape n 256 hk wk a ->
  has_shape n 128 (2 * hk) (2 * wk) b ->
  has_shape n 64 (4 * hk) (4 * wk) c ->
  returns (FusionNet.forward (FusionNet.__init__ sd name in_dim) x
             (Some (map Some [a; b; c])))
    (fun y => has_shape n 3 (8 * hk) (8 * wk) y /\ bounded (-1) 1 y).
Proof.
  intros Hx Hh Hw Hin Hr Ha Hb Hc.
  unfold FusionNet.forward, FusionNet.__init__;
    cbn [FusionNet.encoder FusionNet.resnet FusionNet.decoder FusionNet.last].
  eapply returns_bind; [ eapply EncoderNet_forward_8; eassumption | intros o1 H1 ].
  eapply returns_bind;
    [ eapply ResNet_forward_shape; [eassumption | lia | lia | lia | assumption]
    | intros o2 H2 ].
  eapply returns_bind;
    [ eapply DecoderNet_forward_fusion; eassumption | intros o3 H3 ].
  eapply head_tanh; [exact H3 | lia ..].
Qed.

Lemma Generator_forward_shape sd name i_t i_s n hk wk :
  has_shape n 3 (8 * hk) (8 * wk) i_t ->
  has_shape n 3 (8 * hk) (8 * wk) i_s ->
  1 <= hk -> 1 <= wk -> ready sd n hk wk ->
  returns (Generator.forward (Generator.__init__ sd name 3) (i_t, i_s))
    (fun '(o_sk, o_t, o_b, o_f) =>
       (has_shape n 1 (8 * hk) (8 * wk) o_sk /\ bounded 0 1 o_sk) /\
       (has_shape n 3 (8 * hk) (8 * wk) o_t /\ bounded (-1) 1 o_t) /\
       (has_shape n 3 (8 * hk) (8 * wk) o_b /\ bounded (-1) 1 o_b) /\
       (has_shape n 3 (8 * hk) (8 * wk) o_f /\ bounded (-1) 1 o_f)).
Proof.
  intros Ht Hs Hh Hw Hr.
  unfold Generator.forward, Generator.__init__;
    cbn [Generator.text_conversion_net Generator.background_inpainting_net
         Generator.fusion_net].
  eapply returns_bind;
    [ eapply TextConversionNet_forward_shape; try eassumption; lia | ].
  intros [o_sk o_t] [Hsk Hot]. cbn [fst snd] in *.
  eapply returns_bind;
    [ eapply BackgroundInpaintingNet_forward_shape; try eassumption; lia | ].
  intros [o_b fuse] (Hob & a & b & c & Hfuse & Ha & Hb & Hc). cbn [fst snd] in *. subst.
  eapply returns_bind;
    [ eapply (FusionNet_forward_shape sd _ 3 o_t a b c n hk wk);
      try assumption; [apply (proj1 Hot) | lia]
    | intros o_f Hof ].
  apply returns_some. auto.
Qed.

(** *** Discriminators *)

Lemma down4 h : down (down (down (down h))) = (h + 15) / 16.
Proof. unfold down. lia. Qed.

Lemma ceil16_exact h : Nat.divide 16 h -> (h + 15) / 16 = h / 16.
Proof. intros [k ->]. lia. Qed.

Lemma Discriminator_stage_shape sd a b cin cout x n h w :
  has_shape n cin h w x -> 1 <= h -> 1 <= w -> 1 <= cin -> 1 <= cout ->
  ready sd n (down h) (down w) ->
  returns (nn.forward (nn.Sequential [ nn.conv sd a cin cout 3 2 1 1;
                                        nn.batch_norm sd b cout; nn.LeakyReLU ]) x)
          (has_shape n cout (down h) (down w)).
Proof. intros Hx Hh Hw Hcin Hcout Hr. run_seq. assumption. Qed.

Lemma Discriminator_last_shape sd a b x n h w :
  has_shape n 512 h w x -> 1 <= h -> 1 <= w -> ready sd n h w ->
  returns (nn.forward (nn.Sequential [ nn.conv sd a 512 1 3 1 1 1;
                                        nn.batch_norm sd b 1; nn.Sigmoid ]) x)
          (fun y => has_shape n 1 h w y /\ bounded 0 1 y).
Proof. intros Hx Hh Hw Hr. run_seq. assumption. Qed.

Lemma SNDiscriminator_stage_shape sd a b cin cout x n h w :
  has_shape n cin h w x -> 1 <= h -> 1 <= w -> 1 <= cin -> 1 <= cout ->
  returns (nn.forward (nn.Sequential
             [ nn.spectral_norm sd a (nn.conv sd b cin cout 3 2 1 1); nn.LeakyReLU ]) x)
          (has_shape n cout (down h) (down w)).
Proof. intros Hx Hh Hw Hcin Hcout. run_seq. assumption. Qed.

(** The smallest maps the discriminator normalizes are those of its last
    two stages. *)
Lemma Discriminator_forward_shape sd name in_dim x n h w :
  has_shape n in_dim h w x -> 1 <= h -> 1 <= w -> 1 <= in_dim ->
  ready sd n ((h + 15) / 16) ((w + 15) / 16) ->
  returns (Discriminator.forward (Discriminator.__init__ sd name in_dim) x)
    (fun y => has_shape n 1 ((h + 15) / 16) ((w + 15) / 16) y /\ bounded 0 1 y).
Proof.
  intros Hx Hh Hw Hin Hr. rewrite <- (down4 h), <- (down4 w) in *.
  assert (1 <= down (down (down (down h))) /\ 1 <= down (down (down (down w))))
    as [Hh4 Hw4] by (unfold down; lia).
  unfold Discriminator.forward, Discriminator.__init__;
    cbn [Discriminator.conv1 Discriminator.conv2 Discriminator.conv3
         Discriminator.conv4 Discriminator.conv5].
  eapply returns_bind;
    [ eapply Discriminator_stage_shape; solve [eauto with shapes] | intros o1 H1 ].
  eapply returns_bind;
    [ eapply Discriminator_stage_shape; solve [eauto with shapes] | intros o2 H2 ].
  eapply returns_bind;
    [ eapply Discriminator_stage_shape; solve [eauto with shapes] | intros o3 H3 ].
  eapply returns_bind;
    [ eapply Discriminator_stage_shape; solve [eauto with shapes] | intros o4 H4 ].
  eapply Discriminator_last_shape; eassumption.
Qed.

(** The four spectrally normalized stages of [SNDiscriminator]. *)
Lemma SNDiscriminator_trunk_shape sd name in_dim x n h w :
  has_shape n in_dim h w x -> 1 <= h -> 1 <= w -> 1 <= in_dim ->
  let self := SNDiscriminator.__init__ sd name in_dim in
  returns (o1 <- nn.forward (SNDiscriminator.conv1 self) x ;;
           o2 <- nn.forward (SNDiscriminator.conv2 self) o1 ;;
           o3 <- nn.forward (SNDiscriminator.conv3 self) o2 ;;
           nn.forward (SNDiscriminator.conv4 self) o3)
    (has_shape n 512 (down (down (down (down h)))) (down (down (down (down w))))).
Proof.
  intros Hx Hh Hw Hin self. unfold self, SNDiscriminator.__init__;
    cbn [SNDiscriminator.conv1 SNDiscriminator.conv2 SNDiscriminator.conv3
         SNDiscriminator.conv4].
  eapply returns_bind;
    [ eapply SNDiscriminator_stage_shape; solve [eauto with shapes] | intros o1 H1 ].
  eapply returns_bind;
    [ eapply SNDiscriminator_stage_shape; solve [eauto with shapes] | intros o2 H2 ].
  eapply returns_bind;
    [ eapply SNDiscriminator_stage_shape; solve [eauto with shapes] | intros o3 H3 ].
  eapply SNDiscriminator_stage_shape; solve [eauto with shapes].
Qed.

Lemma SNDiscriminator_forward_split self x :
  SNDiscriminator.forward self x
  = (o4 <- (o1 <- nn.forward (SNDiscriminator.conv1 self) x ;;
            o2 <- nn.forward (SNDiscriminator.conv2 self) o1 ;;
            o3 <- nn.forward (SNDiscriminator.conv3 self) o2 ;;
            nn.forward (SNDiscriminator.conv4 self) o3) ;;
     nn.forward (SNDiscriminator.conv5 self) o4).
Proof.
  unfold SNDiscriminator.forward.
  destruct (nn.forward (SNDiscriminator.conv1 self) x) as [o1 |]; [cbn [bind] | reflexivity].
  destruct (nn.forward (SNDiscriminator.conv2 self) o1) as [o2 |]; [cbn [bind] | reflexivity].
  destruct (nn.forward (SNDiscriminator.conv3 self) o2) as [o3 |]; reflexivity.
Qed.

Lemma SNDiscriminator_forward_shape sd name in_dim x n h w :
  has_shape n in_dim h w x -> 1 <= h -> 1 <= w -> 1 <= in_dim ->
  returns (SNDiscriminator.forward (SNDiscriminator.__init__ sd name in_dim) x)
    (has_shape n 1 ((h + 15) / 16) ((w + 15) / 16)).
Proof.
  intros Hx Hh Hw Hin. rewrite <- (down4 h), <- (down4 w).
  rewrite SNDiscriminator_forward_split.
  eapply returns_bind; [ eapply SNDiscriminator_trunk_shape; eassumption | intros o4 H4 ].
  unfold SNDiscriminator.__init__; cbn [SNDiscriminator.conv5].
  run_seq. assumption.
Qed.

(** *** Values of a convolution *)

Lemma rsum_zero n f : (forall i, f i = 0%R) -> rsum n f = 0%R.
Proof.
  intros Hf. induction n as [| n IH]; simpl; [reflexivity |].
  rewrite IH, Hf. lra.
Qed.

Lemma conv2d_data x wt b cin cout k s p d y :
  F.conv2d x wt b cin cout k s p d = Some y ->
  forall n co i j,
    data y n co i j
    = (b co + rsum cin (fun ci => rsum k (fun ki => rsum k (fun kj =>
         wt co ci ki kj * F.padded p x n ci (i * s + ki * d) (j * s + kj * d)))))%R.
Proof.
  unfold F.conv2d.
  destruct ((dimC x =? cin) && negb (cout =? 0)); [| discriminate].
  destruct (F.conv_out (dimH x) k s p d); [| discriminate].
  destruct (F.conv_out (dimW x) k s p d); [| discriminate].
  cbn [bind]. intros Hy; inversion Hy; subst. reflexivity.
Qed.

Lemma append_assoc (a b c : string) : ((a ++ b) ++ c = a ++ (b ++ c))%string.
Proof. induction a as [| ch a IH]; simpl; [reflexivity | now rewrite IH]. Qed.

Lemma append_inj (p a b : string) : (p ++ a = p ++ b)%string -> a = b.
Proof.
  induction p as [| ch p IH]; simpl; intros H; [exact H |].
  inversion H. auto.
Qed.

(** With [sd_bias name v] the last convolution of [SNDiscriminator] has
    zero weights and bias [v]: every element of the output is [v]. *)
Lemma SNDiscriminator_any_value name in_dim x n h w v :
  has_shape n in_dim h w x -> 1 <= h -> 1 <= w -> 1 <= in_dim ->
  returns (SNDiscriminator.forward
             (SNDiscriminator.__init__ (sd_bias name v) name in_dim) x)
    (fun y => forall a b c d, data y a b c d = v).
Proof.
  intros Hx Hh Hw Hin. rewrite SNDiscriminator_forward_split.
  eapply returns_bind; [ eapply SNDiscriminator_trunk_shape; eassumption | intros o4 H4 ].
  unfold SNDiscriminator.__init__; cbn [SNDiscriminator.conv5].
  rewrite forward_seq_cons.
  destruct (forward_conv_same (sd_bias name v) (name ++ "conv5.0") o4 _ _ _ _ H4
              ltac:(unfold down; lia) ltac:(unfold down; lia) ltac:(lia) 1 ltac:(lia))
    as (y & Hy & _).
  rewrite Hy. cbn [bind]. rewrite forward_seq_nil. apply returns_some.
  intros a b c d. unfold nn.conv in Hy. cbn [nn.forward] in Hy.
  rewrite (conv2d_data _ _ _ _ _ _ _ _ _ _ Hy).
  unfold vec, sd_bias; cbn [tensors].
  rewrite !append_assoc. cbn [append]. rewrite String.eqb_refl.
  rewrite rsum_zero; [lra |].
  intros ci. apply rsum_zero. intros ki. apply rsum_zero. intros kj.
  destruct (String.eqb_spec (name ++ "conv5.0.weight") (name ++ "conv5.0.bias"))
    as [E | _]; [apply append_inj in E; discriminate E |].
  rewrite String.eqb_refl. lra.
Qed.

Lemma SN_sigmas_sd_bias name v : SN_sigmas (sd_bias name v) name = [1; 1; 1; 1]%R.
Proof.
  unfold SN_sigmas, sd_bias. cbn [map tensors]. rewrite !append_assoc. cbn [append].
  repeat match goal with
         | |- context [String.eqb (name ++ ?a) (name ++ ?b)] =>
             destruct (String.eqb_spec (name ++ a) (name ++ b)) as [E | _];
             [apply append_inj in E; discriminate E |]
         end.
  reflexivity.
Qed.

(** *** Concrete runs

    Shapes are computed by evaluation; only the data of a tensor stays
    symbolic. *)

Example encoder_on_8x8 :
  option_map shape
    (EncoderNet.forward (EncoderNet.__init__ sd0 "" 3) (zeros 2 3 8 8) false)
  = Some (2, 256, 1, 1).
Proof. reflexivity. Qed.

Example decoder_on_1x1 :
  option_map shape
    (DecoderNet.forward (DecoderNet.__init__ sd0 "" 256 None) (zeros 2 256 1 1) None false)
  = Some (2, 32, 8, 8).
Proof. reflexivity. Qed.

Example generator_on_16x16 :
  option_map (fun '(o_sk, o_t, o_b, o_f) => (shape o_sk, shape o_t, shape o_b, shape o_f))
    (Generator.forward (Generator.__init__ sd0 "" 3) (zeros 2 3 16 16, ones 2 3 16 16))
  = Some ((2, 1, 16, 16), (2, 3, 16, 16), (2, 3, 16, 16), (2, 3, 16, 16)).
Proof. reflexivity. Qed.

(** Extents that are not multiples of 8: the encoder's skip map of extent
    3 cannot be concatenated with the decoder's map of extent 4. *)
Example inpainting_rejects_12x12 :
  BackgroundInpaintingNet.forward
    (BackgroundInpaintingNet.__init__ sd0 "" 3) (zeros 2 3 12 12) = None.
Proof. reflexivity. Qed.

(** A channel count the encoder was not built for. *)
Example encoder_rejects_4_channels :
  EncoderNet.forward (EncoderNet.__init__ sd0 "" 3) (zeros 2 4 16 16) false = None.
Proof. reflexivity. Qed.

(** The fusion net is built for [in_dim] channels but is fed the 3-channel
    stylized text: a generator for 1-channel images does not run. *)
Example generator_on_1_channel :
  Generator.forward (Generator.__init__ sd0 "" 1) (zeros 2 1 16 16, zeros 2 1 16 16)
  = None.
Proof. reflexivity. Qed.

Example residual_on_6_channels :
  option_map shape
    (Residual.forward (Residual.__init__ sd0 "" 6) (ones 2 6 5 7))
  = Some (2, 6, 5, 7).
Proof. reflexivity. Qed.

Example discriminator_on_24x40 :
  option_map shape
    (Discriminator.forward (Discriminator.__init__ sd0 "" 6) (ones 2 6 24 40))
  = Some (2, 1, 2, 3).
Proof. reflexivity. Qed.

(** Batch normalization in training mode (as the modules are constructed)
    refuses a single value per channel: a single 8x8 image is rejected by
    the last stage of the encoder, and accepted in evaluation mode, as is
    a single 8x16 image in either mode. *)
Example encoder_on_one_8x8 :
  EncoderNet.forward (EncoderNet.__init__ sd0 "" 3) (ones 1 3 8 8) false = None.
Proof. reflexivity. Qed.

Example encoder_on_one_8x8_eval :
  option_map shape
    (EncoderNet.forward (EncoderNet.__init__ sd7 "" 3) (ones 1 3 8 8) false)
  = Some (1, 256, 1, 1).
Proof. reflexivity. Qed.

Example encoder_on_one_8x16 :
  option_map shape
    (EncoderNet.forward (EncoderNet.__init__ sd0 "" 3) (ones 1 3 8 16) false)
  = Some (1, 256, 1, 2).
Proof. reflexivity. Qed.

(** Modules built for no channels: a block without output channels is
    refused; a block without input channels yields a tensor without
    channels, which the next block, built for 32 channels, rejects. *)
Example block_without_output_channels :
  nn.forward (conv_bn_relu sd0 "" 3 0) (ones 2 3 5 9) = None.
Proof. reflexivity. Qed.

Example block_without_input_channels :
  option_map shape (nn.forward (conv_bn_relu sd0 "" 0 32) (ones 2 0 5 9))
  = Some (2, 0, 5, 9).
Proof. reflexivity. Qed.

Example encoder_without_input_channels :
  EncoderNet.forward (EncoderNet.__init__ sd0 "" 0) (ones 2 0 8 8) false = None.
Proof. reflexivity. Qed.

Example decoder_index_error :
  DecoderNet.forward (DecoderNet.__init__ sd0 "" 256 None) (zeros 2 256 1 1)
    (Some [None]) false = None.
Proof. reflexivity. Qed.

(** *** Auxiliary facts for the claims *)

Lemma shape_has_shape t : has_shape (dimN t) (dimC t) (dimH t) (dimW t) t.
Proof. reflexivity. Qed.

Lemma multiple_of_8 h : 1 <= h -> Nat.divide 8 h -> exists k, h = 8 * k /\ 1 <= k.
Proof. intros Hh [k ->]. exists k. lia. Qed.

(** Evaluating the rectification. *)

Lemma leaky_relu_scalar_pos v : (0 < v)%R -> F.leaky_relu_scalar v = v.
Proof.
  intros Hv. unfold F.leaky_relu_scalar.
  destruct (Rlt_dec 0 v); [reflexivity | contradiction].
Qed.

Lemma leaky_relu_scalar_neg v : (v <= 0)%R -> F.leaky_relu_scalar v = (v / 100)%R.
Proof.
  intros Hv. unfold F.leaky_relu_scalar, F.negative_slope.
  destruct (Rlt_dec 0 v); lra.
Qed.

(** Rewrite every rectification whose argument has a sign [lra] can see,
    innermost first. *)
Ltac eval_leaky :=
  repeat match goal with
         | |- context [F.leaky_relu_scalar ?v] =>
             first [ rewrite (leaky_relu_scalar_neg v) by lra
                   | rewrite (leaky_relu_scalar_pos v) by lra ]
         end.

Lemma sqrt_unit_variance : sqrt (99999 / 100000 + F.eps) = 1%R.
Proof.
  unfold F.eps. replace (99999 / 100000 + 1 / 100000)%R with 1%R by lra.
  apply sqrt_1.
Qed.

(** The last stage of the discriminator, on any input. *)

Lemma conv2d_channels x wt b cin cout k s p d y :
  F.conv2d x wt b cin cout k s p d = Some y -> 1 <= cin -> dimC y = cout.
Proof.
  unfold F.conv2d.
  destruct ((dimC x =? cin) && negb (cout =? 0)); [| discriminate].
  destruct (F.conv_out (dimH x) k s p d); [| discriminate].
  destruct (F.conv_out (dimW x) k s p d); [| discriminate].
  cbn [bind]. intros Hy Hcin; inversion Hy; cbn [dimC].
  destruct (Nat.eqb_spec cin 0); [lia | reflexivity].
Qed.

Lemma batch_norm_channels x rm rv g b nf train y :
  F.batch_norm x rm rv g b nf train = Some y -> dimC y = dimC x.
Proof.
  unfold F.batch_norm.
  destruct (train && _); [discriminate |].
  destruct (_ || _); [| discriminate].
  intros Hy; inversion Hy; reflexivity.
Qed.

Lemma Discriminator_last_range sd name in_dim x :
  match nn.forward (Discriminator.conv5 (Discriminator.__init__ sd name in_dim)) x with
  | Some y => dimC y = 1 /\ bounded 0 1 y
  | None => True
  end.
Proof.
  unfold Discriminator.__init__; cbn [Discriminator.conv5 nn.forward nn.conv nn.batch_norm].
  destruct (F.conv2d x _ _ 512 1 3 1 1 1) as [c |] eqn:Hc; cbn [bind]; [| exact I].
  destruct (F.batch_norm c _ _ _ _ 1 _) as [z |] eqn:Hz; cbn [bind]; [| exact I].
  split; [| apply bounded_sigmoid].
  apply batch_norm_channels in Hz. apply conv2d_channels in Hc; [| lia].
  cbn [F.sigmoid torch.pointwise dimC]. congruence.
Qed.

(** * The claims *)

(** C1.  For every pair of input images of shape (N, 3, 256, 256),
    [Generator.forward] returns four tensors, the mask, the stylized text,
    the background and the final image, of shapes (N, 1, 256, 256),
    (N, 3, 256, 256), (N, 3, 256, 256) and (N, 3, 256, 256); every element
    of the mask lies in [0,1], every element of the background and of the
    final image in [-1,1]. *)
Theorem C1_generator_outputs sd name N text_image style_image :
  shape text_image = (N, 3, 256, 256) ->
  shape style_image = (N, 3, 256, 256) ->
  exists mask stylized_text background final_image,
    Generator.forward (Generator.__init__ sd name 3) (text_image, style_image)
      = Some (mask, stylized_text, background, final_image) /\
    shape mask = (N, 1, 256, 256) /\
    shape stylized_text = (N, 3, 256, 256) /\
    shape background = (N, 3, 256, 256) /\
    shape final_image = (N, 3, 256, 256) /\
    bounded 0 1 mask /\
    bounded (-1) 1 background /\
    bounded (-1) 1 final_image.
Proof.
  intros Ht Hs.
  destruct (Generator_forward_shape sd name text_image style_image N 32 32)
    as ([[[mask stylized] background] final] & Heq & (Hm & Bm) & (Hst & _) & (Hb & Bb) & (Hf & Bf));
    [ exact Ht | exact Hs | lia | lia | right; lia | ].
  exists mask, stylized, background, final.
  exact (conj Heq (conj Hm (conj Hst (conj Hb (conj Hf (conj Bm (conj Bb Bf))))))).
Qed.

Lemma C1_generator_outputs_witness :
  exists mask stylized_text background final_image,
    Generator.forward (Generator.__init__ sd0 "" 3)
      (ones 1 3 256 256, zeros 1 3 256 256)
      = Some (mask, stylized_text, background, final_image) /\
    shape mask = (1, 1, 256, 256) /\
    shape stylized_text = (1, 3, 256, 256) /\
    shape background = (1, 3, 256, 256) /\
    shape final_image = (1, 3, 256, 256) /\
    bounded 0 1 mask /\
    bounded (-1) 1 background /\
    bounded (-1) 1 final_image.
Proof.
  apply (C1_generator_outputs sd0 "" 1 (ones 1 3 256 256) (zeros 1 3 256 256));
    reflexivity.
Defined.

(** C2, as stated, fails: in training mode (as the modules are
    constructed) a single 8x8 image leaves the last stage of the encoder
    with one value per channel, which batch normalization refuses; the
    encoder raises and there is no output to decode. *)
Lemma C2_encoder_decoder_round_trip_counterexample :
  let x := ones 1 3 8 8 in
  Nat.divide 8 (dimH x) /\ Nat.divide 8 (dimW x) /\
  (forall name, training sd0 name = true) /\
  EncoderNet.forward (EncoderNet.__init__ sd0 "" (dimC x)) x false = None.
Proof.
  split; [exists 1; reflexivity |]. split; [exists 1; reflexivity |].
  split; reflexivity.
Qed.

(** C2, amended.  For every input image (at least one channel) whose
    height H and width W are positive and divisible by 8, with the modules
    in evaluation mode or more than one value per channel left at the
    bottleneck (N * (H/8) * (W/8) is not 1), the output of [EncoderNet],
    fed to a [DecoderNet] without skip features, comes back with the
    height and the width of the input. *)
Theorem C2_encoder_decoder_round_trip sd_e name_e sd_d name_d x :
  1 <= dimC x -> 1 <= dimH x -> 1 <= dimW x ->
  Nat.divide 8 (dimH x) -> Nat.divide 8 (dimW x) ->
  ready sd_e (dimN x) (dimH x / 8) (dimW x / 8) ->
  ready sd_d (dimN x) (dimH x / 8) (dimW x / 8) ->
  exists z y,
    EncoderNet.forward (EncoderNet.__init__ sd_e name_e (dimC x)) x false = Some z /\
    DecoderNet.forward (DecoderNet.__init__ sd_d name_d 256 None) z None false = Some y /\
    dimH y = dimH x /\ dimW y = dimW x.
Proof.
  intros Hc Hh Hw Dh Dw Re Rd.
  destruct (multiple_of_8 _ Hh Dh) as (hk & Eh & Hhk).
  destruct (multiple_of_8 _ Hw Dw) as (wk & Ew & Hwk).
  pose proof (shape_has_shape x) as Hx. rewrite Eh, Ew in Hx, Re, Rd.
  replace (8 * hk / 8) with hk in Re, Rd by lia.
  replace (8 * wk / 8) with wk in Re, Rd by lia.
  destruct (EncoderNet_forward_8 sd_e name_e _ x _ hk wk Hx Hhk Hwk Hc Re)
    as (z & Hz & Sz).
  destruct (DecoderNet_forward_plain sd_d name_d 256 z _ hk wk Sz Hhk Hwk
              ltac:(lia) Rd) as (y & Hy & Sy).
  exists z, y. apply has_shape_dims in Sy as (_ & _ & Yh & Yw).
  split; [exact Hz |]. split; [exact Hy |]. split; congruence.
Qed.

Lemma C2_encoder_decoder_round_trip_witness :
  exists z y,
    EncoderNet.forward (EncoderNet.__init__ sd0 "encoder." 3) (ones 2 3 64 24) false
      = Some z /\
    DecoderNet.forward (DecoderNet.__init__ sd0 "decoder." 256 None) z None false
      = Some y /\
    dimH y = 64 /\ dimW y = 24.
Proof.
  apply (C2_encoder_decoder_round_trip sd0 "encoder." sd0 "decoder." (ones 2 3 64 24)).
  - simpl; lia.
  - simpl; lia.
  - simpl; lia.
  - exists 8; reflexivity.
  - exists 3; reflexivity.
  - right. vm_compute. lia.
  - right. vm_compute. lia.
Defined.

(** C3.  For every input of shape (N, 3, 256, 256), [EncoderNet(3)] in
    feature-map mode returns a final map of shape (N, 256, 32, 32) and a
    list of exactly two skip maps, of shapes (N, 128, 64, 64) and
    (N, 64, 128, 128) in that order. *)
Theorem C3_encoder_feature_maps sd name N x :
  shape x = (N, 3, 256, 256) ->
  exists out f2 f1,
    EncoderNet.forward (EncoderNet.__init__ sd name 3) x true = Some (out, [f2; f1]) /\
    shape out = (N, 256, 32, 32) /\
    shape f2 = (N, 128, 64, 64) /\
    shape f1 = (N, 64, 128, 128).
Proof.
  intros Hx.
  destruct (EncoderNet_forward_true_8 sd name 3 x N 32 32)
    as ([out fs] & Heq & Hout & f2 & f1 & Hfs & H2 & H1);
    [ exact Hx | lia | lia | lia | right; lia | ].
  cbn [fst snd] in *. subst fs.
  exists out, f2, f1.
  exact (conj Heq (conj Hout (conj H2 H1))).
Qed.

Lemma C3_encoder_feature_maps_witness :
  exists out f2 f1,
    EncoderNet.forward (EncoderNet.__init__ sd0 "" 3) (zeros 4 3 256 256) true
      = Some (out, [f2; f1]) /\
    shape out = (4, 256, 32, 32) /\
    shape f2 = (4, 128, 64, 64) /\
    shape f1 = (4, 64, 128, 128).
Proof.
  apply (C3_encoder_feature_maps sd0 "" 4 (zeros 4 3 256 256)). reflexivity.
Defined.

(** C4, as stated, fails: on a batch of two 6-channel images of height 24
    and width 40 the discriminator returns a map of height 2 and width 3,
    neither 24/16 nor 40/16 (whether the quotient is taken in the integers
    or in the reals); and on a single 16x16 image, in training mode (as
    the modules are constructed), it raises, its last stages being left
    with one value per channel, which batch normalization refuses. *)
Lemma C4_discriminator_outputs_counterexample :
  (exists y,
    Discriminator.forward (Discriminator.__init__ sd0 "" 6) (ones 2 6 24 40) = Some y /\
    shape y = (2, 1, 2, 3) /\
    dimH y <> 24 / 16 /\ dimW y <> 40 / 16 /\
    (INR (dimH y) <> 24 / 16)%R /\ (INR (dimW y) <> 40 / 16)%R) /\
  Discriminator.forward (Discriminator.__init__ sd0 "" 6) (ones 1 6 16 16) = None.
Proof.
  split; [| reflexivity].
  destruct (Discriminator_forward_shape sd0 "" 6 (ones 2 6 24 40) 2 24 40)
    as (y & Hy & Sy & _); [ reflexivity | lia | lia | lia | right; vm_compute; lia | ].
  exists y. split; [exact Hy |].
  change ((24 + 15) / 16) with 2 in Sy. change ((40 + 15) / 16) with 3 in Sy.
  split; [exact Sy |].
  apply has_shape_dims in Sy as (_ & _ & -> & ->).
  change (24 / 16) with 1. change (40 / 16) with 2.
  repeat split; try lia; simpl; lra.
Qed.

(** C4, amended.  For every input image (at least one channel) of positive
    height H and width W, with the modules in evaluation mode or more than
    one value per channel left after the four halvings (N * ceil(H/16) *
    ceil(W/16) is not 1), [Discriminator.forward] returns a single-channel
    map of height ceil(H/16) and width ceil(W/16), which are H/16 and W/16
    when H and W are multiples of 16, with every value in [0,1]; for the
    same input [SNDiscriminator.forward] returns a map of the same shape;
    its final stage is a bare convolution, with no activation, and its
    values are not confined: for every real v there are parameters (every
    spectral norm 1, the last convolution with weights 0 and bias v) with
    which every element of the output is v. *)
Theorem C4_discriminator_outputs sd name x :
  1 <= dimC x -> 1 <= dimH x -> 1 <= dimW x ->
  ready sd (dimN x) ((dimH x + 15) / 16) ((dimW x + 15) / 16) ->
  let out_shape := (dimN x, 1, (dimH x + 15) / 16, (dimW x + 15) / 16) in
  (exists y, Discriminator.forward (Discriminator.__init__ sd name (dimC x)) x = Some y /\
             shape y = out_shape /\ bounded 0 1 y) /\
  (exists y, SNDiscriminator.forward (SNDiscriminator.__init__ sd name (dimC x)) x
             = Some y /\
             shape y = out_shape) /\
  (Nat.divide 16 (dimH x) -> (dimH x + 15) / 16 = dimH x / 16) /\
  (Nat.divide 16 (dimW x) -> (dimW x + 15) / 16 = dimW x / 16) /\
  kinds (SNDiscriminator.conv5 (SNDiscriminator.__init__ sd name (dimC x))) = [KConv] /\
  (forall v : R, exists sd' y,
      SN_sigmas sd' name = [1; 1; 1; 1]%R /\
      SNDiscriminator.forward (SNDiscriminator.__init__ sd' name (dimC x)) x = Some y /\
      forall a b c d, data y a b c d = v).
Proof.
  intros Hc Hh Hw Hr out_shape. pose proof (shape_has_shape x) as Hx.
  split.
  { destruct (Discriminator_forward_shape sd name _ x _ _ _ Hx Hh Hw Hc Hr)
      as (y & Hy & Sy & By).
    exists y. auto. }
  split.
  { destruct (SNDiscriminator_forward_shape sd name _ x _ _ _ Hx Hh Hw Hc)
      as (y & Hy & Sy).
    exists y. auto. }
  split; [apply ceil16_exact |].
  split; [apply ceil16_exact |].
  split; [reflexivity |].
  intros v.
  destruct (SNDiscriminator_any_value name _ x _ _ _ v Hx Hh Hw Hc) as (y & Hy & Vy).
  exists (sd_bias name v), y.
  split; [apply SN_sigmas_sd_bias |]. auto.
Qed.

Lemma C4_discriminator_outputs_witness :
  let x := ones 2 6 64 128 in
  let out_shape := (2, 1, 4, 8) in
  (exists y, Discriminator.forward (Discriminator.__init__ sd0 "" 6) x = Some y /\
             shape y = out_shape /\ bounded 0 1 y) /\
  (exists y, SNDiscriminator.forward (SNDiscriminator.__init__ sd0 "" 6) x = Some y /\
             shape y = out_shape) /\
  (Nat.divide 16 64 -> (64 + 15) / 16 = 64 / 16) /\
  (Nat.divide 16 128 -> (128 + 15) / 16 = 128 / 16) /\
  kinds (SNDiscriminator.conv5 (SNDiscriminator.__init__ sd0 "" 6)) = [KConv] /\
  (forall v : R, exists sd' y,
      SN_sigmas sd' "" = [1; 1; 1; 1]%R /\
      SNDiscriminator.forward (SNDiscriminator.__init__ sd' "" 6) x = Some y /\
      forall a b c d, data y a b c d = v).
Proof.
  apply (C4_discriminator_outputs sd0 "" (ones 2 6 64 128));
    [ simpl; lia | simpl; lia | simpl; lia | right; vm_compute; lia ].
Defined.

(** C5.  For every pair of inputs (x1, x2), [DiscriminatorMixed.forward]
    returns the pair (o1, o2) exactly when its first discriminator, applied
    alone to x1, returns o1 and its second discriminator, applied alone to
    x2, returns o2; the two discriminators are the ones [__init__] builds
    under the names D1 and D2. *)
Theorem C5_discriminator_mixed sd name in_dim1 in_dim2 x1 x2 o1 o2 :
  let self := DiscriminatorMixed.__init__ sd name in_dim1 in_dim2 in
  (DiscriminatorMixed.forward self (x1, x2) = Some (o1, o2) <->
   Discriminator.forward (DiscriminatorMixed.D1 self) x1 = Some o1 /\
   Discriminator.forward (DiscriminatorMixed.D2 self) x2 = Some o2) /\
  DiscriminatorMixed.D1 self = Discriminator.__init__ sd (name ++ "D1.") in_dim1 /\
  DiscriminatorMixed.D2 self = Discriminator.__init__ sd (name ++ "D2.") in_dim2.
Proof.
  intros self. split; [| split; reflexivity].
  unfold DiscriminatorMixed.forward.
  destruct (Discriminator.forward (DiscriminatorMixed.D1 self) x1) as [a |];
    cbn [bind].
  - destruct (Discriminator.forward (DiscriminatorMixed.D2 self) x2) as [b |];
      cbn [bind].
    + split.
      * intros H; inversion H; auto.
      * intros [Ha Hb]; inversion Ha; inversion Hb; reflexivity.
    + split; [discriminate | intros [_ H]; discriminate H].
  - split; [discriminate | intros [H _]; discriminate H].
Qed.

(** C6, as stated, fails: in training mode (as the modules are
    constructed) a tensor of shape (1, 4, 1, 1) has one value per channel,
    which the batch normalization that closes the unit refuses; and for
    C = 0 the unit's convolutions have no output channel and are
    refused.  In both cases the unit, and the tower, raise. *)
Lemma C6_residual_preserves_shape_counterexample :
  (Nat.divide 4 (dimC (ones 1 4 1 1)) /\
   (forall name, training sd0 name = true) /\
   Residual.forward (Residual.__init__ sd0 "" 4) (ones 1 4 1 1) = None /\
   ResNet.forward (ResNet.__init__ sd0 "" 4) (ones 1 4 1 1) = None) /\
  (Nat.divide 4 (dimC (ones 2 0 5 7)) /\
   Residual.forward (Residual.__init__ sd0 "" 0) (ones 2 0 5 7) = None /\
   ResNet.forward (ResNet.__init__ sd0 "" 0) (ones 2 0 5 7) = None).
Proof.
  split.
  - split; [exists 1; reflexivity |]. repeat split; reflexivity.
  - split; [exists 0; reflexivity |]. split; reflexivity.
Qed.

(** C6, amended.  For every input tensor of positive height and width
    whose channel count C is positive and divisible by 4, with the modules
    in evaluation mode or more than one value per channel (N * H * W is
    not 1), [Residual.forward] returns a tensor of exactly the input's
    shape, and so does the tower of four units, [ResNet.forward]. *)
Theorem C6_residual_preserves_shape sd name C x :
  dimC x = C -> 1 <= C -> Nat.divide 4 C -> 1 <= dimH x -> 1 <= dimW x ->
  ready sd (dimN x) (dimH x) (dimW x) ->
  (exists y, Residual.forward (Residual.__init__ sd name C) x = Some y /\
             shape y = shape x) /\
  (exists y, ResNet.forward (ResNet.__init__ sd name C) x = Some y /\
             shape y = shape x).
Proof.
  intros HC Hpos [k Ek] Hh Hw Hr.
  assert (H4 : 4 <= C) by lia.
  pose proof (shape_has_shape x) as Hx. rewrite HC in Hx.
  split.
  - destruct (Residual_forward_shape sd name C x _ _ _ Hx Hh Hw H4 Hr) as (y & Hy & Sy).
    exists y. split; [exact Hy |]. rewrite Sy. unfold shape. now rewrite HC.
  - destruct (ResNet_forward_shape sd name C x _ _ _ Hx Hh Hw H4 Hr) as (y & Hy & Sy).
    exists y. split; [exact Hy |]. rewrite Sy. unfold shape. now rewrite HC.
Qed.

Lemma C6_residual_preserves_shape_witness :
  (exists y, Residual.forward (Residual.__init__ sd0 "" 256) (ones 2 256 32 32) = Some y /\
             shape y = shape (ones 2 256 32 32)) /\
  (exists y, ResNet.forward (ResNet.__init__ sd0 "" 256) (ones 2 256 32 32) = Some y /\
             shape y = shape (ones 2 256 32 32)).
Proof.
  apply (C6_residual_preserves_shape sd0 "" 256 (ones 2 256 32 32)).
  - reflexivity.
  - lia.
  - exists 64; reflexivity.
  - simpl; lia.
  - simpl; lia.
  - right. vm_compute. lia.
Defined.

(** C7, as stated, fails: the code rectifies after the 3x3 convolution as
    well.  With the parameters [sd7] and an input of ones the unit returns
    0.99, where the computation as stated, on the same layers, gives 0. *)
Lemma C7_residual_computation_counterexample :
  kinds (Residual.conv (Residual.__init__ sd7 "" 4))
    <> ResidualAsStated.kinds_before_shortcut /\
  exists a b,
    Residual.forward (Residual.__init__ sd7 "" 4) (ones 1 4 1 1) = Some a /\
    ResidualAsStated.forward sd7 "" 4 (ones 1 4 1 1) = Some b /\
    data a 0 0 0 0 = (99 / 100)%R /\
    data b 0 0 0 0 = 0%R /\
    data a 0 0 0 0 <> data b 0 0 0 0.
Proof.
  split; [discriminate |].
  eexists. eexists.
  split; [reflexivity |]. split; [reflexivity |].
  assert (Hdiff : forall u v : R, u = (99 / 100)%R -> v = 0%R ->
                    u = (99 / 100)%R /\ v = 0%R /\ u <> v).
  { intros u v -> ->. repeat split; lra. }
  apply Hdiff; cbn; rewrite sqrt_unit_variance; eval_leaky; lra.
Qed.

(** C7, amended.  On an input of C channels [Residual.forward] computes a
    1x1 convolution to C/4, a 3x3 convolution (padding 1) at C/4 and a 1x1
    convolution back to C, with leaky rectification after the first and
    after the second convolution; the result is added to the input, and the
    sum is batch-normalized and leaky-rectified. *)
Theorem C7_residual_computation sd name in_dim x :
  let self := Residual.__init__ sd name in_dim in
  Residual.forward self x = ResidualAmended.forward sd name in_dim x /\
  kinds (Residual.conv self) = [KConv; KLeaky; KConv; KLeaky; KConv] /\
  convs (Residual.conv self)
    = [ (in_dim, in_dim / 4, 1, 1, 0);
        (in_dim / 4, in_dim / 4, 3, 1, 1);
        (in_dim / 4, in_dim, 1, 1, 0) ] /\
  kind (Residual.bn self) = KNorm.
Proof.
  intros self. split; [| repeat split].
  unfold self, Residual.forward, ResidualAmended.forward, Residual.__init__;
    cbn [Residual.conv Residual.bn].
  cbn [nn.forward nn.conv].
  repeat match goal with
         | |- context [bind (F.conv2d ?t ?wt ?b ?ci ?co ?k ?s ?p ?d) _] =>
             destruct (F.conv2d t wt b ci co k s p d); cbn [bind]
         end;
    reflexivity.
Qed.

(** C8, as stated, fails: the fifth stage of the code has stride 1, not 2,
    and it is normalized too, a [BatchNorm2d(1)] standing before the
    sigmoid. *)
Lemma C8_discriminator_architecture_counterexample :
  let d := Discriminator.__init__ sd0 "" 6 in
  stage_stride (Discriminator.conv5 d) = [1] /\
  kinds (Discriminator.conv5 d) = [KConv; KNorm; KSigmoid] /\
  ~ Discriminator_as_stated d.
Proof.
  split; [reflexivity |]. split; [reflexivity |].
  intros (Hstride & _). cbv in Hstride. discriminate Hstride.
Qed.

(** C8, amended.  [Discriminator] is a stack of five convolutional stages
    with channel schedule in_dim, 64, 128, 256, 512, 1, the first four of
    stride 2 and the fifth of stride 1; batch normalization is applied at
    each of the five stages, leaky rectification at each of the first four
    only, and the final stage ends in a sigmoid: what [forward] returns is a
    single-channel map with values in [0,1]. *)
Theorem C8_discriminator_architecture sd name in_dim :
  let d := Discriminator.__init__ sd name in_dim in
  map stage_stride (Discriminator.stages d) = [[2]; [2]; [2]; [2]; [1]] /\
  map stage_channels (Discriminator.stages d)
    = [[(in_dim, 64)]; [(64, 128)]; [(128, 256)]; [(256, 512)]; [(512, 1)]] /\
  map kinds (Discriminator.stages d)
    = [ [KConv; KNorm; KLeaky]; [KConv; KNorm; KLeaky]; [KConv; KNorm; KLeaky];
        [KConv; KNorm; KLeaky]; [KConv; KNorm; KSigmoid] ] /\
  (forall x, Discriminator.forward d x
             = nn.forward (nn.Sequential (Discriminator.stages d)) x) /\
  (forall x, match Discriminator.forward d x with
             | Some y => dimC y = 1 /\ bounded 0 1 y
             | None => True
             end).
Proof.
  intros d. split; [reflexivity |]. split; [reflexivity |]. split; [reflexivity |].
  split.
  - intros x. unfold Discriminator.forward, Discriminator.stages.
    rewrite forward_seq_cons.
    destruct (nn.forward (Discriminator.conv1 d) x) as [o1 |]; [cbn [bind] | reflexivity].
    rewrite forward_seq_cons.
    destruct (nn.forward (Discriminator.conv2 d) o1) as [o2 |]; [cbn [bind] | reflexivity].
    rewrite forward_seq_cons.
    destruct (nn.forward (Discriminator.conv3 d) o2) as [o3 |]; [cbn [bind] | reflexivity].
    rewrite forward_seq_cons.
    destruct (nn.forward (Discriminator.conv4 d) o3) as [o4 |]; [cbn [bind] | reflexivity].
    rewrite forward_seq_cons.
    destruct (nn.forward (Discriminator.conv5 d) o4) as [o5 |]; reflexivity.
  - intros x. unfold Discriminator.forward.
    destruct (nn.forward (Discriminator.conv1 d) x) as [o1 |]; [cbn [bind] | exact I].
    destruct (nn.forward (Discriminator.conv2 d) o1) as [o2 |]; [cbn [bind] | exact I].
    destruct (nn.forward (Discriminator.conv3 d) o2) as [o3 |]; [cbn [bind] | exact I].
    destruct (nn.forward (Discriminator.conv4 d) o3) as [o4 |]; [cbn [bind] | exact I].
    apply Discriminator_last_range.
Qed.

(** C9, as stated, fails: in training mode (as the modules are
    constructed) a single 3-channel 8x8 image, whose extents are divisible
    by 8 as the specification requires of an image, leaves the last stage
    of the encoder with one value per channel, which batch normalization
    refuses; the net raises, and returns neither a background nor feature
    maps. *)
Lemma C9_inpainting_features_fit_fusion_counterexample :
  let x := ones 1 3 8 8 in
  Nat.divide 8 (dimH x) /\ Nat.divide 8 (dimW x) /\
  (forall name, training sd0 name = true) /\
  BackgroundInpaintingNet.forward
    (BackgroundInpaintingNet.__init__ sd0 "" (dimC x)) x = None.
Proof.
  split; [exists 1; reflexivity |]. split; [exists 1; reflexivity |].
  split; reflexivity.
Qed.

(** C9, amended.  For every style/source input with as many channels, at
    least one, as the net was built for, and positive height H and width W
    divisible by 8, with the modules in evaluation mode or more than one
    value per channel left at the bottleneck (N * (H/8) * (W/8) is not 1),
    [BackgroundInpaintingNet.forward] returns a 3-channel background image
    with elements in [-1,1] (tanh) and a list of exactly three decoder
    feature maps of channel widths 256, 128 and 64 in that order; the
    decoder of [FusionNet] is built for skip maps of widths (256, 128, 64),
    and [FusionNet.forward], given a stylized text image (at least one
    channel) of the same batch and extents and that list unchanged, returns
    a 3-channel image of the input's extents. *)
Theorem C9_inpainting_features_fit_fusion sd name_b name_f x o_t :
  1 <= dimC x -> 1 <= dimH x -> 1 <= dimW x ->
  Nat.divide 8 (dimH x) -> Nat.divide 8 (dimW x) ->
  ready sd (dimN x) (dimH x / 8) (dimW x / 8) ->
  1 <= dimC o_t ->
  (dimN o_t, dimH o_t, dimW o_t) = (dimN x, dimH x, dimW x) ->
  exists background f1 f2 f3,
    BackgroundInpaintingNet.forward
      (BackgroundInpaintingNet.__init__ sd name_b (dimC x)) x
      = Some (background, [f1; f2; f3]) /\
    shape background = (dimN x, 3, dimH x, dimW x) /\
    bounded (-1) 1 background /\
    (dimC f1, dimC f2, dimC f3) = (256, 128, 64) /\
    FusionNet.decoder (FusionNet.__init__ sd name_f (dimC o_t))
      = DecoderNet.__init__ sd (name_f ++ "decoder.") 256 (Some (256, 128, 64)) /\
    exists final_image,
      FusionNet.forward (FusionNet.__init__ sd name_f (dimC o_t)) o_t
        (Some (map Some [f1; f2; f3])) = Some final_image /\
      shape final_image = (dimN x, 3, dimH x, dimW x).
Proof.
  intros Hc Hh Hw Dh Dw Hr Hct Ho.
  destruct (multiple_of_8 _ Hh Dh) as (hk & Eh & Hhk).
  destruct (multiple_of_8 _ Hw Dw) as (wk & Ew & Hwk).
  pose proof (shape_has_shape x) as Hx. rewrite Eh, Ew in Hx, Hr.
  replace (8 * hk / 8) with hk in Hr by lia.
  replace (8 * wk / 8) with wk in Hr by lia.
  destruct (BackgroundInpaintingNet_forward_shape sd name_b _ x _ hk wk Hx Hhk Hwk Hc Hr)
    as ([bg fuse] & Heq & (Sbg & Bbg) & f1 & f2 & f3 & Hfuse & S1 & S2 & S3).
  cbn [fst snd] in *. subst fuse.
  assert (Hot : has_shape (dimN x) (dimC o_t) (8 * hk) (8 * wk) o_t).
  { unfold has_shape, shape. inversion Ho as [[Hn Hh' Hw']].
    rewrite Hn, Hh', Hw', Eh, Ew. reflexivity. }
  destruct (FusionNet_forward_shape sd name_f _ o_t f1 f2 f3 _ hk wk
              Hot Hhk Hwk Hct Hr S1 S2 S3) as (fin & Hfin & Sfin & _).
  exists bg, f1, f2, f3.
  split; [exact Heq |].
  split; [rewrite Eh, Ew; exact Sbg |].
  split; [exact Bbg |].
  split.
  { apply has_shape_dims in S1 as (_ & -> & _).
    apply has_shape_dims in S2 as (_ & -> & _).
    apply has_shape_dims in S3 as (_ & -> & _). reflexivity. }
  split; [reflexivity |].
  exists fin. split; [exact Hfin |]. rewrite Eh, Ew. exact Sfin.
Qed.

Lemma C9_inpainting_features_fit_fusion_witness :
  exists background f1 f2 f3,
    BackgroundInpaintingNet.forward
      (BackgroundInpaintingNet.__init__ sd0 "b." 3) (ones 1 3 64 128)
      = Some (background, [f1; f2; f3]) /\
    shape background = (1, 3, 64, 128) /\
    bounded (-1) 1 background /\
    (dimC f1, dimC f2, dimC f3) = (256, 128, 64) /\
    FusionNet.decoder (FusionNet.__init__ sd0 "f." 3)
      = DecoderNet.__init__ sd0 ("f." ++ "decoder.") 256 (Some (256, 128, 64)) /\
    exists final_image,
      FusionNet.forward (FusionNet.__init__ sd0 "f." 3) (zeros 1 3 64 128)
        (Some (map Some [f1; f2; f3])) = Some final_image /\
      shape final_image = (1, 3, 64, 128).
Proof.
  apply (C9_inpainting_features_fit_fusion sd0 "b." "f."
           (ones 1 3 64 128) (zeros 1 3 64 128)).
  - simpl; lia.
  - simpl; lia.
  - simpl; lia.
  - exists 8; reflexivity.
  - exists 16; reflexivity.
  - right. vm_compute. lia.
  - simpl; lia.
  - reflexivity.
Defined.

(** C10.  For every decoder and every input, [DecoderNet.forward] with
    [fuse=None], with [fuse=[None, None, None]] and with the empty list
    give the same result; at a stage a skip map is concatenated exactly
    when the list is non-empty and holds a tensor at the stage's index (an
    index past the end of a non-empty list raises). *)
Theorem C10_decoder_absent_skips (self : DecoderNet.t) (x : Tensor)
    (get_feature_map : bool) :
  DecoderNet.forward self x None get_feature_map
  = DecoderNet.forward self x (Some [None; None; None]) get_feature_map /\
  DecoderNet.forward self x None get_feature_map
  = DecoderNet.forward self x (Some []) get_feature_map /\
  forall (y : Tensor) (fuse : option (list (option Tensor))) (k : nat),
    DecoderNet.cat_fuse y fuse k
    = match fuse with
      | None | Some [] => Some y
      | Some fs =>
          match nth_error fs k with
          | Some (Some s) => torch.cat y s
          | Some None => Some y
          | None => None
          end
      end.
Proof.
  split; [reflexivity |]. split; [reflexivity |].
  intros y [[| f fs] |] k; [reflexivity | | reflexivity].
  unfold DecoderNet.cat_fuse. cbn [truthy getitem].
  destruct (nth_error (f :: fs) k) as [[s |] |]; reflexivity.
Qed.

(** * Further properties *)

(** ** Channel counts a module was not built for *)

Lemma bind_assoc {A B C : Type} (m : option A) (f : A -> option B) (g : B -> option C) :
  bind m (fun a => bind (f a) g) = bind (bind m f) g.
Proof. destruct m; reflexivity. Qed.

Lemma conv2d_channel_mismatch x wt b cin cout k s p d :
  dimC x <> cin -> F.conv2d x wt b cin cout k s p d = None.
Proof.
  intros H. unfold F.conv2d.
  destruct (Nat.eqb_spec (dimC x) cin); [contradiction | reflexivity].
Qed.

Lemma conv_bn_relu_channel_mismatch sd name cin cout x :
  dimC x <> cin -> nn.forward (conv_bn_relu sd name cin cout) x = None.
Proof.
  intros H. unfold conv_bn_relu. rewrite forward_seq_cons.
  unfold nn.conv; cbn [nn.forward]. now rewrite conv2d_channel_mismatch.
Qed.

Lemma EncoderNet_channel_mismatch sd name in_dim x get_feature_map :
  dimC x <> in_dim ->
  EncoderNet.forward (EncoderNet.__init__ sd name in_dim) x get_feature_map = None.
Proof.
  intros H. unfold EncoderNet.forward, EncoderNet.__init__; cbn [EncoderNet.l1].
  rewrite forward_seq_cons. now rewrite conv_bn_relu_channel_mismatch.
Qed.

Lemma Residual_channel_mismatch sd name in_dim x :
  dimC x <> in_dim -> Residual.forward (Residual.__init__ sd name in_dim) x = None.
Proof.
  intros H. unfold Residual.forward, Residual.__init__; cbn [Residual.conv].
  rewrite forward_seq_cons. unfold nn.conv at 1; cbn [nn.forward].
  now rewrite conv2d_channel_mismatch.
Qed.

(** ** What a returned tensor tells about the input *)

Lemma conv_out_same_inv i o : F.conv_out i 3 1 1 1 = Some o -> 1 <= i /\ o = i.
Proof.
  destruct i as [| i]; [discriminate |].
  rewrite conv_out_same by lia. intros H; inversion H. lia.
Qed.

(** A convolution that returned was built for the channels of its input
    and has at least one output channel; on an input with channels, the
    output has the channels the layer was built to produce. *)
Lemma conv2d_same_inv x wt b cin cout y :
  F.conv2d x wt b cin cout 3 1 1 1 = Some y ->
  dimC x = cin /\ 1 <= cout /\ 1 <= dimH x /\ 1 <= dimW x /\
  (1 <= cin -> has_shape (dimN x) cout (dimH x) (dimW x) y).
Proof.
  unfold F.conv2d.
  destruct (Nat.eqb_spec (dimC x) cin) as [E |]; [| discriminate].
  destruct (Nat.eqb_spec cout 0) as [| Hcout]; [discriminate |]. cbn [negb andb].
  destruct (F.conv_out (dimH x) 3 1 1 1) as [h' |] eqn:Hh; [| discriminate].
  destruct (F.conv_out (dimW x) 3 1 1 1) as [w' |] eqn:Hw; [| discriminate].
  apply conv_out_same_inv in Hh as [Hh ->]. apply conv_out_same_inv in Hw as [Hw ->].
  cbn [bind]. intros Hy; inversion Hy; subst y.
  repeat split; try assumption; try lia.
  intros Hcin. destruct (Nat.eqb_spec cin 0); [lia | reflexivity].
Qed.

Lemma head_channels sd name cin cout x y :
  1 <= cin ->
  nn.forward (nn.Sequential [nn.conv sd name cin cout 3 1 1 1; nn.Tanh]) x = Some y ->
  dimC y = cout.
Proof.
  intros Hcin. rewrite forward_seq_cons. unfold nn.conv; cbn [nn.forward].
  destruct (F.conv2d x _ _ cin cout 3 1 1 1) as [c |] eqn:Hc; cbn [bind]; [| discriminate].
  intros Hy; inversion Hy; subst y.
  apply conv2d_channels in Hc; assumption.
Qed.

(** ** The skip contract of the decoder *)

Lemma fits_dec e n c h w : {fits e n c h w} + {~ fits e n c h w}.
Proof.
  destruct e as [s |]; cbn [fits]; repeat decide equality.
Qed.

Lemma cat_extent_mismatch a b :
  (dimN a, dimH a, dimW a) <> (dimN b, dimH b, dimW b) -> torch.cat a b = None.
Proof.
  intros H. unfold torch.cat.
  destruct (Nat.eqb_spec (dimN a) (dimN b)) as [En |]; [| reflexivity].
  destruct (Nat.eqb_spec (dimH a) (dimH b)) as [Eh |]; [| reflexivity].
  destruct (Nat.eqb_spec (dimW a) (dimW b)) as [Ew |]; [| reflexivity].
  exfalso. apply H. congruence.
Qed.

Lemma cat_channels a b y : torch.cat a b = Some y -> dimC y = dimC a + dimC b.
Proof.
  unfold torch.cat.
  destruct ((dimN a =? dimN b) && (dimH a =? dimH b) && (dimW a =? dimW b));
    [| discriminate].
  intros H; inversion H; reflexivity.
Qed.

(** One stage of the decoder: the skip entry is concatenated, if there is
    one, and the two blocks of the stage run.  The stage returns when the
    entry fits and raises when it does not. *)
Lemma decoder_stage sd a b (l : list (option Tensor)) k e y n c extra cout h w :
  has_shape n c h w y -> 1 <= h -> 1 <= w -> 1 <= c -> 1 <= cout ->
  ready sd n h w ->
  l <> [] -> nth_error l k = Some e ->
  let stage :=
    z <- DecoderNet.cat_fuse y (Some l) k ;;
    nn.forward (nn.Sequential [ conv_bn_relu sd a (c + extra) cout;
                                 conv_bn_relu sd b cout cout ]) z in
  (fits e n extra h w -> returns stage (has_shape n cout h w)) /\
  (~ fits e n extra h w -> stage = None).
Proof.
  intros Hy Hh Hw Hc Hcout Hr Hl He stage. unfold stage, DecoderNet.cat_fuse.
  destruct l as [| e0 l']; [congruence |]. cbn [truthy getitem].
  rewrite He. cbn [bind].
  pose proof (has_shape_dims _ _ _ _ _ Hy) as (Yn & Yc & Yh & Yw).
  destruct e as [s |]; cbn [fits].
  - split.
    + intros Hs.
      eapply returns_bind; [ eapply cat_shape; [exact Hy | exact Hs] | intros z Hz ].
      apply stage_conv_shape; try assumption; lia.
    + intros Hs.
      destruct (torch.cat y s) as [z |] eqn:Hz; cbn [bind]; [| reflexivity].
      rewrite forward_seq_cons, conv_bn_relu_channel_mismatch; [reflexivity |].
      rewrite (cat_channels _ _ _ Hz), Yc. intros E. apply Hs.
      unfold torch.cat in Hz.
      destruct (Nat.eqb_spec (dimN y) (dimN s)) as [En |]; [| discriminate].
      destruct (Nat.eqb_spec (dimH y) (dimH s)) as [Eh |]; [| discriminate].
      destruct (Nat.eqb_spec (dimW y) (dimW s)) as [Ew |]; [| discriminate].
      unfold shape. repeat f_equal; lia.
  - split.
    + intros ->. rewrite Nat.add_0_r. apply stage_conv_shape; assumption.
    + intros Hne. cbn [bind].
      rewrite forward_seq_cons, conv_bn_relu_channel_mismatch; [reflexivity |].
      lia.
Qed.

(** Replace the first computation of a chain by its known result. *)
Ltac head_is v E :=
  match goal with
  | |- bind ?m _ = _ => replace m with v by (symmetry; exact E)
  end;
  cbn [bind]; try reflexivity.

Section SkipContract.
Variables (sd : StateDict) (name : string) (in_dim c1 c2 c3 : nat).
Variables (e1 e2 e3 : option Tensor) (x : Tensor) (n h w : nat).
Hypothesis Hx : has_shape n in_dim h w x.
Hypotheses (Hh : 1 <= h) (Hw : 1 <= w) (Hin : 1 <= in_dim).
Hypothesis Hready : ready sd n h w.

Let self := DecoderNet.__init__ sd name in_dim (Some (c1, c2, c3)).
Let fuse := Some [e1; e2; e3].

Lemma DecoderNet_contract_returns :
  fits e1 n c1 h w -> fits e2 n c2 (2 * h) (2 * w) ->
  fits e3 n c3 (2 * (2 * h)) (2 * (2 * w)) ->
  returns (DecoderNet.forward self x fuse true)
    (fun r =>
       has_shape n 32 (8 * h) (8 * w) (fst r) /\
       exists a b c, snd r = [a; b; c] /\
         has_shape n 256 h w a /\
         has_shape n 128 (2 * h) (2 * w) b /\
         has_shape n 64 (4 * h) (4 * w) c).
Proof.
  intros F1 F2 F3.
  eapply returns_impl.
  - eapply DecoderNet_forward_true with (h := h) (w := w) (fuse := fuse);
      try eassumption; try lia; intros y Hy.
    + unfold fuse, DecoderNet.cat_fuse; cbn [truthy getitem nth_error bind].
      destruct e1 as [s |]; cbn [fits] in F1.
      * apply cat_shape; assumption.
      * subst c1. rewrite Nat.add_0_r. apply returns_some, Hy.
    + unfold fuse, DecoderNet.cat_fuse; cbn [truthy getitem nth_error bind].
      destruct e2 as [s |]; cbn [fits] in F2.
      * apply cat_shape; assumption.
      * subst c2. rewrite Nat.add_0_r. apply returns_some, Hy.
    + unfold fuse, DecoderNet.cat_fuse; cbn [truthy getitem nth_error bind].
      destruct e3 as [s |]; cbn [fits] in F3.
      * apply cat_shape; assumption.
      * subst c3. rewrite Nat.add_0_r. apply returns_some, Hy.
  - intros r (Hr & a & b & c & Hfs & Ha & Hb & Hc). split.
    + eapply has_shape_eq; [exact Hr | lia | lia].
    + exists a, b, c. repeat split; try assumption.
      eapply has_shape_eq; [exact Hc | lia | lia].
Qed.

Lemma DecoderNet_contract_raises get_feature_map :
  ~ (fits e1 n c1 h w /\ fits e2 n c2 (2 * h) (2 * w) /\
     fits e3 n c3 (2 * (2 * h)) (2 * (2 * w))) ->
  DecoderNet.forward self x fuse get_feature_map = None.
Proof.
  intros Hnot.
  unfold DecoderNet.forward, self, fuse, DecoderNet.__init__;
    cbn [DecoderNet.conv1 DecoderNet.deconv1 DecoderNet.conv2 DecoderNet.deconv2
         DecoderNet.conv3 DecoderNet.deconv3 DecoderNet.conv4].
  (* first stage *)
  rewrite bind_assoc.
  destruct (decoder_stage sd (name ++ "conv1.0") (name ++ "conv1.1") [e1; e2; e3] 0 e1
              x n in_dim c1 256 h w Hx Hh Hw Hin ltac:(lia) Hready
              ltac:(discriminate) eq_refl) as [Y1 N1].
  destruct (fits_dec e1 n c1 h w) as [F1 | F1]; [| head_is (@None Tensor) (N1 F1) ].
  destruct (Y1 F1) as (a & Ea & Sa). head_is (Some a) Ea.
  destruct (stage_deconv_shape sd (name ++ "deconv1.0") 256 128 a n h w Sa Hh Hw)
    as (u1 & Eu1 & Su1).
  head_is (Some u1) Eu1.
  (* second stage *)
  rewrite bind_assoc.
  destruct (decoder_stage sd (name ++ "conv2.0") (name ++ "conv2.1") [e1; e2; e3] 1 e2
              u1 n 128 c2 128 (2 * h) (2 * w) Su1 ltac:(lia) ltac:(lia)
              ltac:(lia) ltac:(lia) ltac:(ready_tac)
              ltac:(discriminate) eq_refl) as [Y2 N2].
  destruct (fits_dec e2 n c2 (2 * h) (2 * w)) as [F2 | F2];
    [| head_is (@None Tensor) (N2 F2) ].
  destruct (Y2 F2) as (b & Eb & Sb). head_is (Some b) Eb.
  destruct (stage_deconv_shape sd (name ++ "deconv2.0") 128 64 b n (2 * h) (2 * w) Sb
              ltac:(lia) ltac:(lia)) as (u2 & Eu2 & Su2).
  head_is (Some u2) Eu2.
  (* third stage *)
  rewrite bind_assoc.
  destruct (decoder_stage sd (name ++ "conv3.0") (name ++ "conv3.1") [e1; e2; e3] 2 e3
              u2 n 64 c3 64 (2 * (2 * h)) (2 * (2 * w)) Su2 ltac:(lia) ltac:(lia)
              ltac:(lia) ltac:(lia) ltac:(ready_tac)
              ltac:(discriminate) eq_refl) as [Y3 N3].
  destruct (fits_dec e3 n c3 (2 * (2 * h)) (2 * (2 * w))) as [F3 | F3];
    [| head_is (@None Tensor) (N3 F3) ].
  exfalso. apply Hnot. auto.
Qed.
End SkipContract.

(** A decoder built for skip widths (c1, c2, c3), on an input of its own
    channel count (at least one) and positive extents h x w (modules in
    evaluation mode, or a batch of at least two), with a list of three skip
    entries: it
    returns exactly when each entry fits its stage (absent
    with width 0, or a map of the stage's width, batch and extents h x w,
    2h x 2w, 4h x 4w), and then the output is 32 channels at 8h x 8w and
    the three feature maps have 256, 128 and 64 channels at h x w, 2h x 2w
    and 4h x 4w; when an entry does not fit, it raises. *)
Theorem DecoderNet_skip_contract sd name c1 c2 c3 e1 e2 e3 x :
  norm_ready sd x -> 1 <= dimC x -> 1 <= dimH x -> 1 <= dimW x ->
  let self := DecoderNet.__init__ sd name (dimC x) (Some (c1, c2, c3)) in
  let fuse := Some [e1; e2; e3] in
  let n := dimN x in let h := dimH x in let w := dimW x in
  let ok := fits e1 n c1 h w /\ fits e2 n c2 (2 * h) (2 * w) /\
            fits e3 n c3 (4 * h) (4 * w) in
  (ok -> exists out a b c,
      DecoderNet.forward self x fuse true = Some (out, [a; b; c]) /\
      DecoderNet.forward self x fuse false = Some out /\
      shape out = (n, 32, 8 * h, 8 * w) /\
      shape a = (n, 256, h, w) /\
      shape b = (n, 128, 2 * h, 2 * w) /\
      shape c = (n, 64, 4 * h, 4 * w)) /\
  (~ ok -> forall get_feature_map,
      DecoderNet.forward self x fuse get_feature_map = None).
Proof.
  intros Hn Hch Hh Hw self fuse n h w ok. pose proof (shape_has_shape x) as Hx.
  pose proof (norm_ready_ready sd x n h w Hn eq_refl Hh Hw) as Hrdy.
  assert (E4 : forall i, 2 * (2 * i) = 4 * i) by (intros; lia).
  split.
  - intros (F1 & F2 & F3).
    assert (F3' : fits e3 n c3 (2 * (2 * h)) (2 * (2 * w))) by (rewrite !E4; exact F3).
    destruct (DecoderNet_contract_returns sd name _ c1 c2 c3 e1 e2 e3 x _ _ _
                Hx Hh Hw Hch Hrdy F1 F2 F3')
      as ([out fs] & Heq & Hout & a & b & c & Hfs & Ha & Hb & Hc).
    cbn [fst snd] in *. subst fs.
    exists out, a, b, c. split; [exact Heq |].
    split; [unfold self, fuse; rewrite DecoderNet_forward_false, Heq; reflexivity |].
    auto.
  - intros Hnot gfm. apply DecoderNet_contract_raises with (n := n) (h := h) (w := w);
      try assumption.
    intros (F1 & F2 & F3). apply Hnot. rewrite !E4 in F3. unfold ok. auto.
Qed.

Lemma DecoderNet_skip_contract_witness :
  let x := ones 2 256 3 5 in
  let self := DecoderNet.__init__ sd0 "" 256 (Some (0, 128, 64)) in
  let fuse := Some [None; Some (zeros 2 128 6 10); Some (zeros 2 64 12 20)] in
  let ok := fits None 2 0 3 5 /\ fits (Some (zeros 2 128 6 10)) 2 128 (2 * 3) (2 * 5) /\
            fits (Some (zeros 2 64 12 20)) 2 64 (4 * 3) (4 * 5) in
  ok /\
  (ok -> exists out a b c,
      DecoderNet.forward self x fuse true = Some (out, [a; b; c]) /\
      DecoderNet.forward self x fuse false = Some out /\
      shape out = (2, 32, 8 * 3, 8 * 5) /\
      shape a = (2, 256, 3, 5) /\
      shape b = (2, 128, 2 * 3, 2 * 5) /\
      shape c = (2, 64, 4 * 3, 4 * 5)) /\
  (~ ok -> forall get_feature_map,
      DecoderNet.forward self x fuse get_feature_map = None).
Proof.
  split; [repeat split |].
  apply (DecoderNet_skip_contract sd0 "" 0 128 64
           None (Some (zeros 2 128 6 10)) (Some (zeros 2 64 12 20)) (ones 2 256 3 5));
    [ right | | | ]; simpl; lia.
Defined.

(** The list of skip entries is read at the indices 0, 1 and 2 only: a
    non-empty list of one or two entries makes every call raise, and
    entries past the third are ignored. *)
Theorem DecoderNet_fuse_length (self : DecoderNet.t) (x : Tensor)
    (e1 e2 e3 : option Tensor) (rest : list (option Tensor)) (get_feature_map : bool) :
  DecoderNet.forward self x (Some [e1]) get_feature_map = None /\
  DecoderNet.forward self x (Some [e1; e2]) get_feature_map = None /\
  DecoderNet.forward self x (Some (e1 :: e2 :: e3 :: rest)) get_feature_map
  = DecoderNet.forward self x (Some [e1; e2; e3]) get_feature_map.
Proof.
  split; [| split; [| reflexivity]].
  - unfold DecoderNet.forward.
    destruct (DecoderNet.cat_fuse x (Some [e1]) 0) as [x0 |]; [cbn [bind] | reflexivity].
    destruct (nn.forward (DecoderNet.conv1 self) x0) as [a |]; [cbn [bind] | reflexivity].
    destruct (nn.forward (DecoderNet.deconv1 self) a) as [u |]; reflexivity.
  - unfold DecoderNet.forward.
    destruct (DecoderNet.cat_fuse x (Some [e1; e2]) 0) as [x0 |]; [cbn [bind] | reflexivity].
    destruct (nn.forward (DecoderNet.conv1 self) x0) as [a |]; [cbn [bind] | reflexivity].
    destruct (nn.forward (DecoderNet.deconv1 self) a) as [u |]; [cbn [bind] | reflexivity].
    destruct (DecoderNet.cat_fuse u (Some [e1; e2]) 1) as [x1 |]; [cbn [bind] | reflexivity].
    destruct (nn.forward (DecoderNet.conv2 self) x1) as [b |]; [cbn [bind] | reflexivity].
    destruct (nn.forward (DecoderNet.deconv2 self) b) as [u2 |]; reflexivity.
Qed.

(** ** Encoder *)

Lemma conv_bn_relu_empty sd name cin cout x :
  dimH x = 0 \/ dimW x = 0 -> nn.forward (conv_bn_relu sd name cin cout) x = None.
Proof.
  intros H. unfold conv_bn_relu. rewrite forward_seq_cons.
  unfold nn.conv; cbn [nn.forward]. unfold F.conv2d.
  destruct ((dimC x =? cin) && negb (cout =? 0)); [| reflexivity].
  destruct H as [-> | ->]; [reflexivity |].
  destruct (F.conv_out (dimH x) 3 1 1 1); reflexivity.
Qed.

Lemma down2 h : down (down h) = (h + 3) / 4.
Proof. unfold down. lia. Qed.

(** On an image of its own channel count (at least one) and positive
    extents H x W (modules in evaluation mode, or a batch of at least two)
    the encoder returns a final map of 256 channels at ceil(H/8) x ceil(W/8)
    and, in feature-map mode, the skip maps of 128 channels at
    ceil(H/4) x ceil(W/4) and of 64 channels at ceil(H/2) x ceil(W/2), in
    that order; the final map is the same tensor in both modes. *)
Theorem EncoderNet_extents sd name x :
  norm_ready sd x -> 1 <= dimC x -> 1 <= dimH x -> 1 <= dimW x ->
  exists out f2 f1,
    EncoderNet.forward (EncoderNet.__init__ sd name (dimC x)) x true
      = Some (out, [f2; f1]) /\
    EncoderNet.forward (EncoderNet.__init__ sd name (dimC x)) x false = Some out /\
    shape out = (dimN x, 256, (dimH x + 7) / 8, (dimW x + 7) / 8) /\
    shape f2 = (dimN x, 128, (dimH x + 3) / 4, (dimW x + 3) / 4) /\
    shape f1 = (dimN x, 64, (dimH x + 1) / 2, (dimW x + 1) / 2).
Proof.
  intros Hn Hc Hh Hw.
  destruct (EncoderNet_forward_true sd name _ x _ _ _ (shape_has_shape x) Hh Hw Hc)
    as ([out fs] & Heq & Hout & f2 & f1 & Hfs & H2 & H1).
  { apply (norm_ready_ready sd x); [exact Hn | reflexivity | |]; unfold down; lia. }
  cbn [fst snd] in *. subst fs. rewrite !down3 in Hout. rewrite !down2 in H2.
  exists out, f2, f1. split; [exact Heq |].
  split; [rewrite EncoderNet_forward_false, Heq; reflexivity |].
  auto.
Qed.

Lemma EncoderNet_extents_witness :
  exists out f2 f1,
    EncoderNet.forward (EncoderNet.__init__ sd0 "" 3) (ones 2 3 13 30) true
      = Some (out, [f2; f1]) /\
    EncoderNet.forward (EncoderNet.__init__ sd0 "" 3) (ones 2 3 13 30) false = Some out /\
    shape out = (2, 256, 2, 4) /\
    shape f2 = (2, 128, 4, 8) /\
    shape f1 = (2, 64, 7, 15).
Proof.
  apply (EncoderNet_extents sd0 "" (ones 2 3 13 30)); [ right | | | ]; simpl; lia.
Defined.

(** The encoder raises, in both modes, on an input whose channel count is
    not the one it was built for, and on an input of height or width 0. *)
Theorem EncoderNet_rejects sd name in_dim x get_feature_map :
  dimC x <> in_dim \/ dimH x = 0 \/ dimW x = 0 ->
  EncoderNet.forward (EncoderNet.__init__ sd name in_dim) x get_feature_map = None.
Proof.
  intros [H | H]; [now apply EncoderNet_channel_mismatch |].
  unfold EncoderNet.forward, EncoderNet.__init__; cbn [EncoderNet.l1].
  rewrite forward_seq_cons. now rewrite conv_bn_relu_empty.
Qed.

Lemma EncoderNet_rejects_witness :
  EncoderNet.forward (EncoderNet.__init__ sd0 "" 3) (ones 2 1 16 16) true = None.
Proof.
  apply (EncoderNet_rejects sd0 "" 3 (ones 2 1 16 16) true).
  left. simpl. discriminate.
Defined.

(** Encoder, then decoder without skip maps, on any image of at least one
    channel and positive extents (modules in evaluation mode, or a batch of
    at least two): each
    extent comes back rounded up to the next multiple of 8,
    so the height (the width) of the input is recovered exactly when it is
    a multiple of 8. *)
Theorem round_trip_rounds_up sd_e name_e sd_d name_d x :
  norm_ready sd_e x -> norm_ready sd_d x ->
  1 <= dimC x -> 1 <= dimH x -> 1 <= dimW x ->
  exists z y,
    EncoderNet.forward (EncoderNet.__init__ sd_e name_e (dimC x)) x false = Some z /\
    DecoderNet.forward (DecoderNet.__init__ sd_d name_d 256 None) z None false = Some y /\
    shape y = (dimN x, 32, 8 * ((dimH x + 7) / 8), 8 * ((dimW x + 7) / 8)) /\
    (dimH y = dimH x <-> dimH x mod 8 = 0) /\
    (dimW y = dimW x <-> dimW x mod 8 = 0).
Proof.
  intros He Hd Hc Hh Hw.
  destruct (EncoderNet_forward_shape sd_e name_e _ x _ _ _ (shape_has_shape x) Hh Hw Hc)
    as (z & Hz & Sz).
  { apply (norm_ready_ready sd_e x); [exact He | reflexivity | |]; unfold down; lia. }
  rewrite !down3 in Sz.
  destruct (DecoderNet_forward_plain sd_d name_d 256 z _ _ _ Sz) as (y & Hy & Sy);
    [lia | lia | lia | apply (norm_ready_ready sd_d x); [exact Hd | reflexivity | |]; lia |].
  exists z, y. split; [exact Hz |]. split; [exact Hy |]. split; [exact Sy |].
  apply has_shape_dims in Sy as (_ & _ & -> & ->). split; lia.
Qed.

Lemma round_trip_rounds_up_witness :
  exists z y,
    EncoderNet.forward (EncoderNet.__init__ sd0 "e." 3) (ones 2 3 13 32) false = Some z /\
    DecoderNet.forward (DecoderNet.__init__ sd0 "d." 256 None) z None false = Some y /\
    shape y = (2, 32, 8 * ((13 + 7) / 8), 8 * ((32 + 7) / 8)) /\
    (dimH y = 13 <-> 13 mod 8 = 0) /\
    (dimW y = 32 <-> 32 mod 8 = 0).
Proof.
  apply (round_trip_rounds_up sd0 "e." sd0 "d." (ones 2 3 13 32));
    [ right | right | | | ]; simpl; lia.
Defined.

(** ** Residual units, on any input *)

Lemma conv_out_point_inv i o : F.conv_out i 1 1 0 1 = Some o -> 1 <= i /\ o = i.
Proof.
  destruct i as [| i]; [discriminate |].
  rewrite conv_out_point by lia. intros H; inversion H. lia.
Qed.

Lemma conv2d_point_inv x wt b cin cout y :
  F.conv2d x wt b cin cout 1 1 0 1 = Some y ->
  dimC x = cin /\ 1 <= cout /\ 1 <= dimH x /\ 1 <= dimW x /\
  (1 <= cin -> has_shape (dimN x) cout (dimH x) (dimW x) y).
Proof.
  unfold F.conv2d.
  destruct (Nat.eqb_spec (dimC x) cin) as [E |]; [| discriminate].
  destruct (Nat.eqb_spec cout 0) as [| Hcout]; [discriminate |]. cbn [negb andb].
  destruct (F.conv_out (dimH x) 1 1 0 1) as [h' |] eqn:Hh; [| discriminate].
  destruct (F.conv_out (dimW x) 1 1 0 1) as [w' |] eqn:Hw; [| discriminate].
  apply conv_out_point_inv in Hh as [Hh ->]. apply conv_out_point_inv in Hw as [Hw ->].
  cbn [bind]. intros Hy; inversion Hy; subst y.
  repeat split; try assumption; try lia.
  intros Hcin. destruct (Nat.eqb_spec cin 0); [lia | reflexivity].
Qed.

Lemma batch_norm_shape_inv x rm rv g b nf train y :
  F.batch_norm x rm rv g b nf train = Some y -> shape y = shape x.
Proof.
  unfold F.batch_norm.
  destruct (train && _); [discriminate |].
  destruct (_ || _); [| discriminate].
  intros Hy; inversion Hy; reflexivity.
Qed.

(** Split a chain that returned into its steps. *)
Ltac bind_inv :=
  repeat match goal with
         | H : bind ?m _ = Some _ |- _ =>
             let E := fresh "E" in
             destruct m eqn:E; [cbn [bind] in H | discriminate H]
         end.

Lemma returns_unique {A : Type} (m : option A) (P : A -> Prop) a :
  returns m P -> m = Some a -> P a.
Proof. intros (a' & E & Ha) E'. congruence. Qed.

Lemma Residual_returns_inv sd name C x y :
  Residual.forward (Residual.__init__ sd name C) x = Some y ->
  dimC x = C /\ 1 <= dimH x /\ 1 <= dimW x /\ shape y = shape x.
Proof.
  unfold Residual.forward, Residual.__init__;
    cbn [Residual.conv Residual.bn nn.forward nn.conv nn.batch_norm].
  intros H. bind_inv.
  repeat match goal with
         | E : Some _ = Some _ |- _ => inversion E; subst; clear E
         end.
  match goal with
  | Ea : F.conv2d x _ _ C _ 1 1 0 1 = Some ?a,
    Eb : F.conv2d (F.leaky_relu ?a) _ _ _ _ 3 1 1 1 = Some ?b,
    Ec : F.conv2d (F.leaky_relu ?b) _ _ _ C 1 1 0 1 = Some ?c,
    Ed : torch.add ?c x = Some ?o,
    Ee : F.batch_norm ?o _ _ _ _ C _ = Some ?z |- _ =>
      apply conv2d_point_inv in Ea as (HC & Ht & Hh & Hw & Sa);
      assert (H4 : 4 <= C) by lia;
      specialize (Sa ltac:(lia));
      apply conv2d_same_inv in Eb as (_ & _ & _ & _ & Sb);
      specialize (Sb Ht);
      apply conv2d_point_inv in Ec as (_ & _ & _ & _ & Sc);
      specialize (Sc Ht);
      cbn [F.leaky_relu torch.pointwise dimN dimH dimW] in Sb, Sc;
      apply has_shape_dims in Sa as (Na & _ & Ha & Wa);
      apply has_shape_dims in Sb as (Nb & _ & Hb & Wb);
      rewrite Nb, Hb, Wb, Na, Ha, Wa in Sc;
      pose proof (shape_has_shape x) as Sx; rewrite HC in Sx;
      pose proof (returns_unique _ _ _ (add_shape _ _ _ _ _ _ Sc Sx) Ed) as So;
      apply batch_norm_shape_inv in Ee as Sz; rewrite So in Sz
  end.
  repeat split; try assumption.
  unfold shape at 2. rewrite HC. exact Sz.
Qed.

Lemma ResNet_returns_inv sd name C x y :
  ResNet.forward (ResNet.__init__ sd name C) x = Some y ->
  dimC x = C /\ 1 <= dimH x /\ 1 <= dimW x /\ shape y = shape x.
Proof.
  unfold ResNet.forward, ResNet.__init__; cbn [ResNet.layer ResNet.run].
  intros H. bind_inv. inversion H; subst; clear H.
  repeat match goal with
         | E : Residual.forward _ _ = Some _ |- _ =>
             apply Residual_returns_inv in E as (? & ? & ? & ?)
         end.
  repeat split; try assumption. congruence.
Qed.

(** Whenever a residual unit built for C channels returns, its input had
    C channels and positive extents, and the output has exactly the shape
    of the input; the same holds for the tower of four units.  So both
    raise on any other channel count, whatever the parameters. *)
Theorem Residual_returns_only_same_shape sd name C x :
  match Residual.forward (Residual.__init__ sd name C) x with
  | Some y => dimC x = C /\ 1 <= dimH x /\ 1 <= dimW x /\ shape y = shape x
  | None => True
  end /\
  match ResNet.forward (ResNet.__init__ sd name C) x with
  | Some y => dimC x = C /\ 1 <= dimH x /\ 1 <= dimW x /\ shape y = shape x
  | None => True
  end /\
  (dimC x <> C ->
   Residual.forward (Residual.__init__ sd name C) x = None /\
   ResNet.forward (ResNet.__init__ sd name C) x = None).
Proof.
  assert (R : match Residual.forward (Residual.__init__ sd name C) x with
              | Some y => dimC x = C /\ 1 <= dimH x /\ 1 <= dimW x /\ shape y = shape x
              | None => True
              end).
  { destruct (Residual.forward _ x) as [y |] eqn:E; [| exact I].
    exact (Residual_returns_inv _ _ _ _ _ E). }
  assert (T : match ResNet.forward (ResNet.__init__ sd name C) x with
              | Some y => dimC x = C /\ 1 <= dimH x /\ 1 <= dimW x /\ shape y = shape x
              | None => True
              end).
  { destruct (ResNet.forward _ x) as [y |] eqn:E; [| exact I].
    exact (ResNet_returns_inv _ _ _ _ _ E). }
  split; [exact R |]. split; [exact T |].
  intros HC.
  destruct (Residual.forward _ x); [tauto |].
  destruct (ResNet.forward _ x); [tauto |]. auto.
Qed.

(** ** The nets of the generator, on any extents *)

Lemma encode_extents sd a b in_dim x n h w :
  has_shape n in_dim h w x -> 1 <= h -> 1 <= w -> 1 <= in_dim ->
  ready sd n ((h + 7) / 8) ((w + 7) / 8) ->
  returns (TextConversionNet.encode
             (EncoderNet.__init__ sd a in_dim, ResNet.__init__ sd b 256) x)
    (has_shape n 256 ((h + 7) / 8) ((w + 7) / 8)).
Proof.
  intros Hx Hh Hw Hin Hrdy. unfold TextConversionNet.encode.
  eapply returns_bind;
    [ eapply EncoderNet_forward_shape; try eassumption; rewrite !down3; exact Hrdy
    | intros y Hy ].
  rewrite !down3 in Hy.
  apply ResNet_forward_shape; [assumption | lia | lia | lia | assumption].
Qed.

Section TextConversion.
Variables (sd : StateDict) (name : string) (in_dim : nat) (x_t x_s : Tensor).
Variables (n_t h_t w_t n_s h_s w_s : nat).
Hypothesis Ht : has_shape n_t in_dim h_t w_t x_t.
Hypothesis Hs : has_shape n_s in_dim h_s w_s x_s.
Hypotheses (Pt : 1 <= h_t /\ 1 <= w_t) (Ps : 1 <= h_s /\ 1 <= w_s).
Hypothesis Hin : 1 <= in_dim.
Hypothesis Rt : ready sd n_t ((h_t + 7) / 8) ((w_t + 7) / 8).
Hypothesis Rs : ready sd n_s ((h_s + 7) / 8) ((w_s + 7) / 8).

Lemma TextConversionNet_forward_agree :
  n_t = n_s -> (h_t + 7) / 8 = (h_s + 7) / 8 -> (w_t + 7) / 8 = (w_s + 7) / 8 ->
  returns (TextConversionNet.forward (TextConversionNet.__init__ sd name in_dim) x_t x_s)
    (fun r =>
       (has_shape n_s 1 (8 * ((h_s + 7) / 8)) (8 * ((w_s + 7) / 8)) (fst r) /\
        bounded 0 1 (fst r)) /\
       (has_shape n_s 3 (8 * ((h_s + 7) / 8)) (8 * ((w_s + 7) / 8)) (snd r) /\
        bounded (-1) 1 (snd r))).
Proof.
  intros En Eh Ew. destruct Pt as [Pht Pwt], Ps as [Phs Pws].
  unfold TextConversionNet.forward, TextConversionNet.__init__;
    cbn [TextConversionNet.t_encoder TextConversionNet.s_encoder
         TextConversionNet.sk_decoder TextConversionNet.t_decoder
         TextConversionNet.t_conv TextConversionNet.last].
  eapply returns_bind; [ eapply encode_extents; eassumption | intros out_t Hot ].
  eapply returns_bind; [ eapply encode_extents; eassumption | intros out_s Hos ].
  rewrite En, Eh, Ew in Hot.
  eapply returns_bind; [ eapply cat_shape; eassumption | intros out Hout ].
  eapply returns_bind;
    [ eapply decode_sk_shape; [exact Hout | lia | lia | exact Rs]
    | intros out_sk [Hsk Hb] ].
  eapply returns_bind;
    [ eapply (DecoderNet_forward_plain sd _ (2 * 256)); [exact Hout | lia | lia | lia | exact Rs]
    | intros o Ho ].
  eapply returns_bind; [ eapply cat_shape; eassumption | intros o1 Ho1 ].
  eapply returns_bind;
    [ eapply (conv_bn_relu_shape sd _ (32 + 1)); [exact Ho1 | lia | lia | lia | lia |];
      ready_tac
    | intros o2 Ho2 ].
  eapply returns_bind; [ eapply head_tanh; [exact Ho2 | lia ..] | intros l Hl ].
  apply returns_some. cbn [fst snd]. auto.
Qed.

Lemma TextConversionNet_forward_disagree :
  ~ (n_t = n_s /\ (h_t + 7) / 8 = (h_s + 7) / 8 /\ (w_t + 7) / 8 = (w_s + 7) / 8) ->
  TextConversionNet.forward (TextConversionNet.__init__ sd name in_dim) x_t x_s = None.
Proof.
  intros Hnot. destruct Pt as [Pht Pwt], Ps as [Phs Pws].
  unfold TextConversionNet.forward, TextConversionNet.__init__;
    cbn [TextConversionNet.t_encoder TextConversionNet.s_encoder].
  destruct (encode_extents sd (name ++ "t_encoder.0.") (name ++ "t_encoder.1.")
              in_dim x_t _ _ _ Ht Pht Pwt Hin Rt) as (out_t & Et & St).
  destruct (encode_extents sd (name ++ "s_encoder.0.") (name ++ "s_encoder.1.")
              in_dim x_s _ _ _ Hs Phs Pws Hin Rs) as (out_s & Es & Ss).
  head_is (Some out_t) Et. head_is (Some out_s) Es.
  rewrite cat_extent_mismatch; [reflexivity |].
  apply has_shape_dims in St as (-> & _ & -> & ->).
  apply has_shape_dims in Ss as (-> & _ & -> & ->).
  intros E. apply Hnot. inversion E. auto.
Qed.
End TextConversion.

(** Given a text image and a style image of the channel count the net was
    built for (at least one) and of positive extents (modules in evaluation
    mode, or batches of at least two), [TextConversionNet.forward] returns
    exactly when the two agree in batch size and in ceil(H/8) and
    ceil(W/8); the mask (1 channel, values in [0,1]) and the stylized text
    (3 channels, values in [-1,1]) then have the extents 8 ceil(H/8) x
    8 ceil(W/8).  Otherwise the concatenation of the two latents raises. *)
Theorem TextConversionNet_outputs sd name x_t x_s :
  norm_ready sd x_t -> norm_ready sd x_s ->
  dimC x_t = dimC x_s -> 1 <= dimC x_s ->
  1 <= dimH x_t -> 1 <= dimW x_t -> 1 <= dimH x_s -> 1 <= dimW x_s ->
  let self := TextConversionNet.__init__ sd name (dimC x_s) in
  let H := 8 * ((dimH x_s + 7) / 8) in
  let W := 8 * ((dimW x_s + 7) / 8) in
  let agree := dimN x_t = dimN x_s /\
               (dimH x_t + 7) / 8 = (dimH x_s + 7) / 8 /\
               (dimW x_t + 7) / 8 = (dimW x_s + 7) / 8 in
  (agree -> exists mask stylized_text,
      TextConversionNet.forward self x_t x_s = Some (mask, stylized_text) /\
      shape mask = (dimN x_s, 1, H, W) /\ bounded 0 1 mask /\
      shape stylized_text = (dimN x_s, 3, H, W) /\ bounded (-1) 1 stylized_text) /\
  (~ agree -> TextConversionNet.forward self x_t x_s = None).
Proof.
  intros Nt Ns EC Hc Pht Pwt Phs Pws self H W agree.
  pose proof (shape_has_shape x_t) as Ht. rewrite EC in Ht.
  pose proof (shape_has_shape x_s) as Hs.
  assert (Rt : ready sd (dimN x_t) ((dimH x_t + 7) / 8) ((dimW x_t + 7) / 8))
    by (apply (norm_ready_ready sd x_t); [exact Nt | reflexivity | lia | lia]).
  assert (Rs : ready sd (dimN x_s) ((dimH x_s + 7) / 8) ((dimW x_s + 7) / 8))
    by (apply (norm_ready_ready sd x_s); [exact Ns | reflexivity | lia | lia]).
  split.
  - intros (En & Eh & Ew).
    destruct (TextConversionNet_forward_agree sd name _ x_t x_s _ _ _ _ _ _ Ht Hs
                (conj Pht Pwt) (conj Phs Pws) Hc Rt Rs En Eh Ew)
      as ([mask st] & Heq & (Sm & Bm) & (Sst & Bst)).
    exists mask, st. cbn [fst snd] in *. auto.
  - intros Hnot.
    exact (TextConversionNet_forward_disagree sd name _ x_t x_s _ _ _ _ _ _ Ht Hs
             (conj Pht Pwt) (conj Phs Pws) Hc Rt Rs Hnot).
Qed.

Lemma TextConversionNet_outputs_witness :
  let x_t := ones 2 3 9 20 in
  let x_s := zeros 2 3 16 24 in
  let self := TextConversionNet.__init__ sd0 "" 3 in
  let agree := 2 = 2 /\ (9 + 7) / 8 = (16 + 7) / 8 /\ (20 + 7) / 8 = (24 + 7) / 8 in
  agree /\
  (agree -> exists mask stylized_text,
      TextConversionNet.forward self x_t x_s = Some (mask, stylized_text) /\
      shape mask = (2, 1, 16, 24) /\ bounded 0 1 mask /\
      shape stylized_text = (2, 3, 16, 24) /\ bounded (-1) 1 stylized_text) /\
  (~ agree -> TextConversionNet.forward self x_t x_s = None).
Proof.
  split; [repeat split |].
  apply (TextConversionNet_outputs sd0 "" (ones 2 3 9 20) (zeros 2 3 16 24));
    [ right | right | | | | | | ]; simpl; lia.
Defined.

Section Inpainting.
Variables (sd : StateDict) (name : string) (in_dim : nat) (x : Tensor) (n h w : nat).
Hypothesis Hx : has_shape n in_dim h w x.
Hypotheses (Hh : 1 <= h) (Hw : 1 <= w) (Hin : 1 <= in_dim).
Hypothesis Hready : ready sd n (down (down (down h))) (down (down (down w))).

Lemma BackgroundInpaintingNet_forward_fits hk wk :
  down h = 4 * hk -> down w = 4 * wk ->
  returns (BackgroundInpaintingNet.forward
             (BackgroundInpaintingNet.__init__ sd name in_dim) x)
    (fun r =>
       (has_shape n 3 (8 * hk) (8 * wk) (fst r) /\ bounded (-1) 1 (fst r)) /\
       exists a b c, snd r = [a; b; c] /\
         has_shape n 256 hk wk a /\
         has_shape n 128 (2 * hk) (2 * wk) b /\
         has_shape n 64 (4 * hk) (4 * wk) c).
Proof.
  intros Eh Ew.
  assert (Hhk : 1 <= hk) by (pose proof (down_pos h Hh); lia).
  assert (Hwk : 1 <= wk) by (pose proof (down_pos w Hw); lia).
  unfold BackgroundInpaintingNet.forward, BackgroundInpaintingNet.__init__;
    cbn [BackgroundInpaintingNet.encoder BackgroundInpaintingNet.resnet
         BackgroundInpaintingNet.decoder BackgroundInpaintingNet.last].
  eapply returns_bind; [ eapply EncoderNet_forward_true; eassumption | ].
  intros [out f_encoder] (Hout & f2 & f1 & Hfs & H2 & H1). cbn [fst snd] in *. subst.
  rewrite Eh, Ew in *. rewrite !down_4, !down_2 in *.
  eapply returns_bind;
    [ eapply ResNet_forward_shape; [eassumption | lia | lia | lia | assumption] | ].
  intros out' Hout'.
  eapply returns_bind; [ eapply DecoderNet_forward_inpainting; eassumption | ].
  intros [o fuse] (Ho & a & b & c & Hfuse & Ha & Hb & Hc). cbn [fst snd] in *. subst.
  eapply returns_bind; [ eapply head_tanh; [exact Ho | lia ..] | intros l Hl ].
  apply returns_some. cbn [fst snd]. split; [exact Hl |].
  exists a, b, c. auto.
Qed.

Lemma BackgroundInpaintingNet_forward_misfit :
  ~ (down h mod 4 = 0 /\ down w mod 4 = 0) ->
  BackgroundInpaintingNet.forward
    (BackgroundInpaintingNet.__init__ sd name in_dim) x = None.
Proof.
  intros Hnot.
  unfold BackgroundInpaintingNet.forward, BackgroundInpaintingNet.__init__;
    cbn [BackgroundInpaintingNet.encoder BackgroundInpaintingNet.resnet
         BackgroundInpaintingNet.decoder BackgroundInpaintingNet.last].
  destruct (EncoderNet_forward_true sd (name ++ "encoder.") in_dim x n h w Hx Hh Hw
              Hin Hready)
    as ([out fs] & Eenc & Hout & f2 & f1 & Hfs & H2 & H1).
  cbn [fst snd] in *. subst fs.
  head_is (Some (out, [f2; f1])) Eenc.
  assert (P3h : 1 <= down (down (down h))) by auto using down_pos.
  assert (P3w : 1 <= down (down (down w))) by auto using down_pos.
  destruct (ResNet_forward_shape sd (name ++ "resnet.") 256 out _ _ _ Hout P3h P3w
              ltac:(lia) Hready)
    as (out' & Eres & Hout').
  head_is (Some out') Eres.
  cbn [map].
  assert (Hmis : ~ (fits None n 0 (down (down (down h))) (down (down (down w))) /\
                    fits (Some f2) n 128 (2 * down (down (down h)))
                      (2 * down (down (down w))) /\
                    fits (Some f1) n 64 (2 * (2 * down (down (down h))))
                      (2 * (2 * down (down (down w)))))).
  { intros (_ & F2 & F1). cbn [fits] in F2, F1. apply Hnot.
    unfold has_shape in H2, H1. rewrite H2 in F2. rewrite H1 in F1.
    inversion F2. inversion F1. unfold down in *. lia. }
  head_is (@None (Tensor * list Tensor))
    (DecoderNet_contract_raises sd (name ++ "decoder.") 256 0 128 64
       None (Some f2) (Some f1) out' n _ _ Hout' P3h P3w ltac:(lia) Hready true Hmis).
Qed.
End Inpainting.

(** On an image of its own channel count (at least one) and positive
    extents H x W (modules in evaluation mode, or a batch of at least two),
    [BackgroundInpaintingNet.forward] returns exactly when ceil(H/2) and
    ceil(W/2) are multiples of 4 (H and W are 0 or 7 modulo 8); the
    background then has 3 channels, values in [-1,1] and the extents
    2 ceil(H/2) x 2 ceil(W/2).  Otherwise an encoder skip map does not
    have the extents of the decoder stage it is concatenated to, and the
    call raises. *)
Theorem BackgroundInpaintingNet_domain sd name x :
  norm_ready sd x -> 1 <= dimC x -> 1 <= dimH x -> 1 <= dimW x ->
  let self := BackgroundInpaintingNet.__init__ sd name (dimC x) in
  let ok := ((dimH x + 1) / 2) mod 4 = 0 /\ ((dimW x + 1) / 2) mod 4 = 0 in
  (ok -> exists background f1 f2 f3,
      BackgroundInpaintingNet.forward self x = Some (background, [f1; f2; f3]) /\
      shape background = (dimN x, 3, 2 * ((dimH x + 1) / 2), 2 * ((dimW x + 1) / 2)) /\
      bounded (-1) 1 background) /\
  (~ ok -> BackgroundInpaintingNet.forward self x = None).
Proof.
  intros Hn Hc Hh Hw self ok. pose proof (shape_has_shape x) as Hx.
  assert (Hr : ready sd (dimN x) (down (down (down (dimH x))))
                 (down (down (down (dimW x)))))
    by (apply (norm_ready_ready sd x); [exact Hn | reflexivity | |]; unfold down; lia).
  split.
  - intros [Oh Ow].
    destruct (BackgroundInpaintingNet_forward_fits sd name _ x _ _ _ Hx Hh Hw Hc Hr
                (down (dimH x) / 4) (down (dimW x) / 4))
      as ([bg fuse] & Heq & (Sbg & Bbg) & a & b & c & Hfuse & _);
      [ unfold down; lia | unfold down; lia | ].
    cbn [fst snd] in *. subst fuse. exists bg, a, b, c.
    split; [exact Heq |]. split; [| exact Bbg].
    eapply has_shape_eq; [exact Sbg | |]; unfold down; lia.
  - intros Hnot.
    apply (BackgroundInpaintingNet_forward_misfit sd name _ x _ _ _ Hx Hh Hw Hc Hr).
    exact Hnot.
Qed.

Lemma BackgroundInpaintingNet_domain_witness :
  let x := ones 2 3 7 16 in
  let self := BackgroundInpaintingNet.__init__ sd0 "" 3 in
  let ok := ((7 + 1) / 2) mod 4 = 0 /\ ((16 + 1) / 2) mod 4 = 0 in
  ok /\
  (ok -> exists background f1 f2 f3,
      BackgroundInpaintingNet.forward self x = Some (background, [f1; f2; f3]) /\
      shape background = (2, 3, 2 * ((7 + 1) / 2), 2 * ((16 + 1) / 2)) /\
      bounded (-1) 1 background) /\
  (~ ok -> BackgroundInpaintingNet.forward self x = None).
Proof.
  split; [split; reflexivity |].
  apply (BackgroundInpaintingNet_domain sd0 "" (ones 2 3 7 16));
    [ right | | | ]; simpl; lia.
Defined.

(** [FusionNet]'s decoder is built for skip maps of 256, 128 and 64
    channels, so the net cannot run without them: with [fuse=None], with
    an empty list or with a list whose first entry is [None] it raises on
    every input. *)
Theorem FusionNet_needs_skips sd name in_dim x (rest : list (option Tensor)) :
  FusionNet.forward (FusionNet.__init__ sd name in_dim) x None = None /\
  FusionNet.forward (FusionNet.__init__ sd name in_dim) x (Some []) = None /\
  FusionNet.forward (FusionNet.__init__ sd name in_dim) x (Some (None :: rest)) = None.
Proof.
  assert (G : forall fuse,
            (forall y, DecoderNet.cat_fuse y fuse 0 = Some y) ->
            FusionNet.forward (FusionNet.__init__ sd name in_dim) x fuse = None).
  { intros fuse Hfuse.
    unfold FusionNet.forward, FusionNet.__init__;
      cbn [FusionNet.encoder FusionNet.resnet FusionNet.decoder FusionNet.last].
    destruct (EncoderNet.forward _ x false) as [o |]; [cbn [bind] | reflexivity].
    destruct (ResNet.forward _ o) as [r |] eqn:Er; [cbn [bind] | reflexivity].
    apply ResNet_returns_inv in Er as (Co & _ & _ & Sr).
    assert (Cr : dimC r = 256) by (unfold shape in Sr; inversion Sr; congruence).
    unfold DecoderNet.forward, DecoderNet.__init__; cbn [DecoderNet.conv1].
    rewrite Hfuse. cbn [bind].
    rewrite forward_seq_cons, conv_bn_relu_channel_mismatch; [reflexivity |].
    lia. }
  repeat split; apply G; intros y; reflexivity.
Qed.

(** [NewFusionNet] concatenates its two images along the channels: when
    they have the same batch size and the same positive extents,
    multiples of 8, and the net was built for the sum of their channel
    counts, which is not 0 (modules in evaluation mode, or a batch of at
    least two), it
    returns a 3-channel image of those extents with values in
    [-1,1]. *)
Theorem NewFusionNet_outputs sd name t_t t_b :
  norm_ready sd t_t ->
  (dimN t_b, dimH t_b, dimW t_b) = (dimN t_t, dimH t_t, dimW t_t) ->
  1 <= dimC t_t + dimC t_b ->
  1 <= dimH t_t -> 1 <= dimW t_t ->
  dimH t_t mod 8 = 0 -> dimW t_t mod 8 = 0 ->
  exists y,
    NewFusionNet.forward (NewFusionNet.__init__ sd name (dimC t_t + dimC t_b)) t_t t_b
      = Some y /\
    shape y = (dimN t_t, 3, dimH t_t, dimW t_t) /\ bounded (-1) 1 y.
Proof.
  intros Hn E Hc Hh Hw Mh Mw.
  assert (Hr : ready sd (dimN t_t) (dimH t_t / 8) (dimW t_t / 8))
    by (apply (norm_ready_ready sd t_t); [exact Hn | reflexivity | lia | lia]).
  assert (En : dimN t_b = dimN t_t) by congruence.
  assert (Eh : dimH t_b = dimH t_t) by congruence.
  assert (Ew : dimW t_b = dimW t_t) by congruence.
  pose proof (shape_has_shape t_t) as Ht.
  pose proof (shape_has_shape t_b) as Hb. rewrite En, Eh, Ew in Hb.
  assert (Kh : dimH t_t = 8 * (dimH t_t / 8)) by lia.
  assert (Kw : dimW t_t = 8 * (dimW t_t / 8)) by lia.
  cut (returns (NewFusionNet.forward
                  (NewFusionNet.__init__ sd name (dimC t_t + dimC t_b)) t_t t_b)
         (fun y => has_shape (dimN t_t) 3 (8 * (dimH t_t / 8)) (8 * (dimW t_t / 8)) y /\
                   bounded (-1) 1 y)).
  { intros (y & Hy & Sy & By). exists y. split; [exact Hy |]. split; [| exact By].
    eapply has_shape_eq; [exact Sy | lia | lia]. }
  unfold NewFusionNet.forward, NewFusionNet.__init__;
    cbn [NewFusionNet.encoder NewFusionNet.resnet NewFusionNet.decoder NewFusionNet.last].
  eapply returns_bind; [ eapply cat_shape; eassumption | intros o0 H0 ].
  rewrite Kh, Kw in H0.
  eapply returns_bind;
    [ eapply EncoderNet_forward_8; [exact H0 | lia | lia | lia | exact Hr]
    | intros o1 H1 ].
  eapply returns_bind;
    [ eapply ResNet_forward_shape; [exact H1 | lia | lia | lia | exact Hr]
    | intros o2 H2 ].
  eapply returns_bind;
    [ eapply DecoderNet_forward_plain; [exact H2 | lia | lia | lia | exact Hr]
    | intros o3 H3 ].
  eapply head_tanh; [exact H3 | lia ..].
Qed.

Lemma NewFusionNet_outputs_witness :
  exists y,
    NewFusionNet.forward (NewFusionNet.__init__ sd0 "" (3 + 3))
      (ones 2 3 16 40) (zeros 2 3 16 40) = Some y /\
    shape y = (2, 3, 16, 40) /\ bounded (-1) 1 y.
Proof.
  apply (NewFusionNet_outputs sd0 "" (ones 2 3 16 40) (zeros 2 3 16 40));
    [ right; simpl; lia | .. ]; try reflexivity; simpl; lia.
Defined.

(** ** The generator *)

Lemma TextConversionNet_stylized_channels sd name in_dim x_t x_s o_sk o_t :
  TextConversionNet.forward (TextConversionNet.__init__ sd name in_dim) x_t x_s
    = Some (o_sk, o_t) ->
  dimC o_t = 3.
Proof.
  unfold TextConversionNet.forward, TextConversionNet.__init__;
    cbn [TextConversionNet.t_encoder TextConversionNet.s_encoder
         TextConversionNet.sk_decoder TextConversionNet.t_decoder
         TextConversionNet.t_conv TextConversionNet.last].
  intros H. bind_inv. inversion H; subst; clear H.
  match goal with
  | E : nn.forward (nn.Sequential [nn.conv _ _ _ 3 3 1 1 1; nn.Tanh]) _ = Some o_t |- _ =>
      eapply head_channels; [| exact E]; lia
  end.
Qed.

(** A generator built for a channel count other than 3 never returns: its
    fusion net expects [in_dim] channels, and what it is given, the
    stylized text, always has 3. *)
Theorem Generator_only_three_channels sd name in_dim inputs :
  in_dim <> 3 ->
  Generator.forward (Generator.__init__ sd name in_dim) inputs = None.
Proof.
  intros Hd. destruct inputs as [i_t i_s].
  unfold Generator.forward, Generator.__init__;
    cbn [Generator.text_conversion_net Generator.background_inpainting_net
         Generator.fusion_net].
  destruct (TextConversionNet.forward _ i_t i_s) as [[o_sk o_t] |] eqn:Et;
    [cbn [bind] | reflexivity].
  destruct (BackgroundInpaintingNet.forward _ i_s) as [[o_b fuse] |];
    [cbn [bind] | reflexivity].
  apply TextConversionNet_stylized_channels in Et.
  unfold FusionNet.forward, FusionNet.__init__; cbn [FusionNet.encoder].
  rewrite EncoderNet_channel_mismatch; [reflexivity | lia].
Qed.

Lemma Generator_only_three_channels_witness :
  Generator.forward (Generator.__init__ sd0 "" 1) (ones 2 1 64 64, zeros 2 1 64 64)
  = None.
Proof.
  apply (Generator_only_three_channels sd0 "" 1 (ones 2 1 64 64, zeros 2 1 64 64)).
  discriminate.
Defined.

Lemma ready_down3 sd n h w :
  ready sd n (down (down (down h))) (down (down (down w))) ->
  ready sd n ((h + 7) / 8) ((w + 7) / 8).
Proof. rewrite !down3. auto. Qed.

Section GeneratorDomain.
Variables (sd : StateDict) (name : string) (i_t i_s : Tensor) (n h w : nat).
Hypothesis Ht : has_shape n 3 h w i_t.
Hypothesis Hs : has_shape n 3 h w i_s.
Hypotheses (Hh : 1 <= h) (Hw : 1 <= w).
Hypothesis Hready : ready sd n (down (down (down h))) (down (down (down w))).

Lemma Generator_forward_fits hk wk :
  down h = 4 * hk -> down w = 4 * wk ->
  returns (Generator.forward (Generator.__init__ sd name 3) (i_t, i_s))
    (fun '(o_sk, o_t, o_b, o_f) =>
       (has_shape n 1 (8 * hk) (8 * wk) o_sk /\ bounded 0 1 o_sk) /\
       (has_shape n 3 (8 * hk) (8 * wk) o_t /\ bounded (-1) 1 o_t) /\
       (has_shape n 3 (8 * hk) (8 * wk) o_b /\ bounded (-1) 1 o_b) /\
       (has_shape n 3 (8 * hk) (8 * wk) o_f /\ bounded (-1) 1 o_f)).
Proof.
  intros Eh Ew.
  assert (Hhk : 1 <= hk) by (pose proof (down_pos h Hh); lia).
  assert (Hwk : 1 <= wk) by (pose proof (down_pos w Hw); lia).
  assert (Ch : (h + 7) / 8 = hk) by (unfold down in Eh; lia).
  assert (Cw : (w + 7) / 8 = wk) by (unfold down in Ew; lia).
  unfold Generator.forward, Generator.__init__;
    cbn [Generator.text_conversion_net Generator.background_inpainting_net
         Generator.fusion_net].
  eapply returns_bind.
  { eapply TextConversionNet_forward_agree with (n_t := n) (n_s := n);
      try eassumption; try reflexivity; try lia;
      try exact (ready_down3 _ _ _ _ Hready); split; assumption. }
  intros [o_sk o_t] [Hsk Hot]. cbn [fst snd] in *. rewrite Ch, Cw in Hsk, Hot.
  eapply returns_bind.
  { eapply BackgroundInpaintingNet_forward_fits with (hk := hk) (wk := wk);
      try eassumption; lia. }
  intros [o_b fuse] (Hob & a & b & c & Hfuse & Ha & Hb & Hc). cbn [fst snd] in *.
  subst fuse.
  eapply returns_bind;
    [ eapply (FusionNet_forward_shape sd _ 3 o_t a b c n hk wk);
      try assumption;
      [apply (proj1 Hot) | lia | rewrite <- Ch, <- Cw; exact (ready_down3 _ _ _ _ Hready)]
    | intros o_f Hof ].
  apply returns_some. auto.
Qed.

Lemma Generator_forward_misfit :
  ~ (down h mod 4 = 0 /\ down w mod 4 = 0) ->
  Generator.forward (Generator.__init__ sd name 3) (i_t, i_s) = None.
Proof.
  intros Hnot.
  unfold Generator.forward, Generator.__init__;
    cbn [Generator.text_conversion_net Generator.background_inpainting_net
         Generator.fusion_net].
  destruct (TextConversionNet_forward_agree sd (name ++ "text_conversion_net.") 3
              i_t i_s n h w n h w Ht Hs (conj Hh Hw) (conj Hh Hw)
              ltac:(lia) (ready_down3 _ _ _ _ Hready) (ready_down3 _ _ _ _ Hready)
              eq_refl eq_refl eq_refl) as ([o_sk o_t] & Et & _).
  head_is (Some (o_sk, o_t)) Et.
  head_is (@None (Tensor * list Tensor))
    (BackgroundInpaintingNet_forward_misfit sd (name ++ "background_inpainting_net.")
       3 i_s n h w Hs Hh Hw ltac:(lia) Hready Hnot).
Qed.
End GeneratorDomain.

(** On a text image and a style image of one shape, 3 channels and
    positive extents H x W (modules in evaluation mode, or a batch of at
    least two), [Generator.forward] returns exactly when
    ceil(H/2) and ceil(W/2) are multiples of 4; the mask (1 channel, values
    in [0,1]) and the stylized text, the background and the final image
    (3 channels, values in [-1,1]) all have the extents 2 ceil(H/2) x
    2 ceil(W/2), which are those of the input when H and W are even.
    Otherwise the call raises in the background-inpainting net. *)
Theorem Generator_domain sd name i_t i_s :
  norm_ready sd i_s ->
  dimC i_s = 3 -> shape i_t = shape i_s ->
  1 <= dimH i_s -> 1 <= dimW i_s ->
  let n := dimN i_s in
  let H := 2 * ((dimH i_s + 1) / 2) in
  let W := 2 * ((dimW i_s + 1) / 2) in
  let ok := ((dimH i_s + 1) / 2) mod 4 = 0 /\ ((dimW i_s + 1) / 2) mod 4 = 0 in
  (ok -> exists o_sk o_t o_b o_f,
      Generator.forward (Generator.__init__ sd name 3) (i_t, i_s)
        = Some (o_sk, o_t, o_b, o_f) /\
      shape o_sk = (n, 1, H, W) /\ shape o_t = (n, 3, H, W) /\
      shape o_b = (n, 3, H, W) /\ shape o_f = (n, 3, H, W) /\
      bounded 0 1 o_sk /\ bounded (-1) 1 o_t /\
      bounded (-1) 1 o_b /\ bounded (-1) 1 o_f) /\
  (~ ok -> Generator.forward (Generator.__init__ sd name 3) (i_t, i_s) = None).
Proof.
  intros Hn HC Est Hh Hw n H W ok.
  pose proof (shape_has_shape i_s) as Hs. rewrite HC in Hs.
  assert (Ht : has_shape n 3 (dimH i_s) (dimW i_s) i_t).
  { unfold has_shape. rewrite Est. exact Hs. }
  assert (Hr : ready sd n (down (down (down (dimH i_s))))
                 (down (down (down (dimW i_s)))))
    by (apply (norm_ready_ready sd i_s); [exact Hn | reflexivity | |]; unfold down; lia).
  split.
  - intros [Oh Ow].
    destruct (Generator_forward_fits sd name i_t i_s _ _ _ Ht Hs Hh Hw Hr
                (down (dimH i_s) / 4) (down (dimW i_s) / 4))
      as ([[[o_sk o_t] o_b] o_f] & Heq & (S1 & B1) & (S2 & B2) & (S3 & B3) & (S4 & B4));
      [ unfold down; lia | unfold down; lia | ].
    assert (Kh : 8 * (down (dimH i_s) / 4) = H) by (unfold H, down; lia).
    assert (Kw : 8 * (down (dimW i_s) / 4) = W) by (unfold W, down; lia).
    rewrite Kh, Kw in S1, S2, S3, S4.
    exists o_sk, o_t, o_b, o_f.
    exact (conj Heq (conj S1 (conj S2 (conj S3 (conj S4
             (conj B1 (conj B2 (conj B3 B4)))))))).
  - intros Hnot.
    exact (Generator_forward_misfit sd name i_t i_s _ _ _ Ht Hs Hh Hw Hr Hnot).
Qed.

Lemma Generator_domain_witness :
  let i_t := ones 2 3 15 64 in
  let i_s := zeros 2 3 15 64 in
  let ok := ((15 + 1) / 2) mod 4 = 0 /\ ((64 + 1) / 2) mod 4 = 0 in
  (ok -> exists o_sk o_t o_b o_f,
      Generator.forward (Generator.__init__ sd0 "" 3) (i_t, i_s)
        = Some (o_sk, o_t, o_b, o_f) /\
      shape o_sk = (2, 1, 16, 64) /\ shape o_t = (2, 3, 16, 64) /\
      shape o_b = (2, 3, 16, 64) /\ shape o_f = (2, 3, 16, 64) /\
      bounded 0 1 o_sk /\ bounded (-1) 1 o_t /\
      bounded (-1) 1 o_b /\ bounded (-1) 1 o_f) /\
  (~ ok -> Generator.forward (Generator.__init__ sd0 "" 3) (i_t, i_s) = None).
Proof.
  apply (Generator_domain sd0 "" (ones 2 3 15 64) (zeros 2 3 15 64));
    [ right; simpl; lia | .. ]; try reflexivity; simpl; lia.
Defined.

(** ** The dilated block *)





(** ** Discriminators on inputs they were not built for, and in a pair *)

Theorem Discriminators_reject_channels sd name in_dim in_dim2 x x2 :
  dimC x <> in_dim ->
  Discriminator.forward (Discriminator.__init__ sd name in_dim) x = None /\
  SNDiscriminator.forward (SNDiscriminator.__init__ sd name in_dim) x = None /\
  DiscriminatorMixed.forward
    (DiscriminatorMixed.__init__ sd name in_dim in_dim2) (x, x2) = None /\
  DiscriminatorMixed.forward
    (DiscriminatorMixed.__init__ sd name in_dim2 in_dim) (x2, x) = None.
Proof.
  intros Hc.
  assert (D : forall nm, Discriminator.forward (Discriminator.__init__ sd nm in_dim) x
                         = None).
  { intros nm. unfold Discriminator.forward, Discriminator.__init__;
      cbn [Discriminator.conv1].
    rewrite forward_seq_cons. unfold nn.conv at 1; cbn [nn.forward].
    now rewrite conv2d_channel_mismatch. }
  split; [apply D |]. split.
  - unfold SNDiscriminator.forward, SNDiscriminator.__init__; cbn [SNDiscriminator.conv1].
    rewrite forward_seq_cons. unfold nn.spectral_norm, nn.conv at 1; cbn [nn.forward].
    now rewrite conv2d_channel_mismatch.
  - unfold DiscriminatorMixed.forward, DiscriminatorMixed.__init__;
      cbn [DiscriminatorMixed.D1 DiscriminatorMixed.D2].
    rewrite !D. split; [reflexivity |].
    destruct (Discriminator.forward _ x2); reflexivity.
Qed.

Lemma Discriminators_reject_channels_witness :
  Discriminator.forward (Discriminator.__init__ sd0 "" 6) (ones 2 3 64 64) = None /\
  SNDiscriminator.forward (SNDiscriminator.__init__ sd0 "" 6) (ones 2 3 64 64) = None /\
  DiscriminatorMixed.forward
    (DiscriminatorMixed.__init__ sd0 "" 6 6) (ones 2 3 64 64, zeros 2 6 64 64) = None /\
  DiscriminatorMixed.forward
    (DiscriminatorMixed.__init__ sd0 "" 6 6) (zeros 2 6 64 64, ones 2 3 64 64) = None.
Proof.
  apply (Discriminators_reject_channels sd0 "" 6 6 (ones 2 3 64 64) (zeros 2 6 64 64)).
  simpl. discriminate.
Defined.

(** The two inputs of [DiscriminatorMixed] (of at least one channel and
    positive extents; modules in evaluation mode, or batches of at least
    two) need not agree in anything:
    each is scored by its own discriminator, built for its channel count,
    and each score map has one channel, the batch size of its input, the
    extents ceil(H/16) x ceil(W/16) of its input and values in [0,1]. *)
Theorem DiscriminatorMixed_outputs sd name x1 x2 :
  norm_ready sd x1 -> norm_ready sd x2 ->
  1 <= dimC x1 -> 1 <= dimC x2 ->
  1 <= dimH x1 -> 1 <= dimW x1 -> 1 <= dimH x2 -> 1 <= dimW x2 ->
  exists o1 o2,
    DiscriminatorMixed.forward
      (DiscriminatorMixed.__init__ sd name (dimC x1) (dimC x2)) (x1, x2) = Some (o1, o2) /\
    shape o1 = (dimN x1, 1, (dimH x1 + 15) / 16, (dimW x1 + 15) / 16) /\
    shape o2 = (dimN x2, 1, (dimH x2 + 15) / 16, (dimW x2 + 15) / 16) /\
    bounded 0 1 o1 /\ bounded 0 1 o2.
Proof.
  intros N1 N2 C1 C2 H1 W1 H2 W2.
  destruct (Discriminator_forward_shape sd (name ++ "D1.") _ x1 _ _ _
              (shape_has_shape x1) H1 W1 C1) as (o1 & E1 & S1 & B1).
  { apply (norm_ready_ready sd x1); [exact N1 | reflexivity | lia | lia]. }
  destruct (Discriminator_forward_shape sd (name ++ "D2.") _ x2 _ _ _
              (shape_has_shape x2) H2 W2 C2) as (o2 & E2 & S2 & B2).
  { apply (norm_ready_ready sd x2); [exact N2 | reflexivity | lia | lia]. }
  exists o1, o2. split; [| auto].
  unfold DiscriminatorMixed.forward, DiscriminatorMixed.__init__;
    cbn [DiscriminatorMixed.D1 DiscriminatorMixed.D2].
  rewrite E1. cbn [bind]. rewrite E2. reflexivity.
Qed.

Lemma DiscriminatorMixed_outputs_witness :
  exists o1 o2,
    DiscriminatorMixed.forward
      (DiscriminatorMixed.__init__ sd0 "" 6 3) (ones 2 6 64 128, zeros 5 3 40 24)
      = Some (o1, o2) /\
    shape o1 = (2, 1, 4, 8) /\
    shape o2 = (5, 1, 3, 2) /\
    bounded 0 1 o1 /\ bounded 0 1 o2.
Proof.
  apply (DiscriminatorMixed_outputs sd0 "" (ones 2 6 64 128) (zeros 5 3 40 24));
    [ right | right | | | | | | ]; simpl; lia.
Defined.

(** ** The perceptual-feature extractor *)

Lemma skipn_nth_error {A : Type} (l : list A) i f :
  nth_error l i = Some f -> skipn i l = f :: skipn (S i) l.
Proof.
  revert i. induction l as [| a l IH]; intros [| i] H; try discriminate.
  - inversion H. reflexivity.
  - cbn [skipn]. apply IH. exact H.
Qed.

Lemma collect_returns {A : Type} (features : list A) count :
  forall i acc,
    i + count <= List.length features ->
    collect features i count acc = Some (acc ++ firstn count (skipn i features))%list.
Proof.
  induction count as [| count IH]; intros i acc Hlen; cbn [collect firstn].
  - now rewrite app_nil_r.
  - destruct (nth_error features i) as [f |] eqn:Ef.
    + cbn [bind]. rewrite IH by lia.
      rewrite (skipn_nth_error _ _ _ Ef). cbn [firstn].
      now rewrite <- app_assoc.
    + apply nth_error_None in Ef. lia.
Qed.

Lemma collect_raises {A : Type} (features : list A) count :
  forall i acc,
    i <= List.length features -> List.length features < i + count ->
    collect features i count acc = None.
Proof.
  induction count as [| count IH]; intros i acc Hi Hlen; [lia |].
  cbn [collect].
  destruct (nth_error features i) as [f |] eqn:Ef; [| reflexivity].
  cbn [bind]. apply IH; [| lia].
  assert (i < List.length features) by (apply nth_error_Some; congruence). lia.
Qed.

(** [get_vgg_model] returns the first 30 feature layers of the classifier
    (indices 0 to 29), so each of the indices 1, 6, 11, 20 and 29 names in
    the result the layer it names in the classifier; a classifier with
    fewer than 30 feature layers makes it raise. *)
Theorem get_vgg_model_prefix {A : Type} (features : list A) :
  (30 <= List.length features ->
   get_vgg_model features = Some (firstn 30 features) /\
   List.length (firstn 30 features) = 30 /\
   Forall (fun i => nth_error (firstn 30 features) i = nth_error features i) vgg_layers) /\
  (List.length features < 30 -> get_vgg_model features = None).
Proof.
  unfold get_vgg_model.
  change (fold_right Nat.max 0 vgg_layers + 1) with 30.
  split.
  - intros Hlen. rewrite collect_returns by lia. cbn [skipn app].
    split; [reflexivity |]. split; [apply firstn_length_le; exact Hlen |].
    unfold vgg_layers.
    repeat constructor; rewrite nth_error_firstn; reflexivity.
  - intros Hlen. apply collect_raises; lia.
Qed.


(** ** The basic block *)

Lemma conv_bn_relu_no_output sd name cin x :
  nn.forward (conv_bn_relu sd name cin 0) x = None.
Proof.
  unfold conv_bn_relu. rewrite forward_seq_cons.
  unfold nn.conv; cbn [nn.forward]. unfold F.conv2d.
  cbn [Nat.eqb negb]. now rewrite andb_false_r.
Qed.

(** [conv_bn_relu(in_channels, out_channels)], built for at least one
    input and one output channel, maps an input of [in_channels] channels
    and positive extents (module in evaluation mode, or a batch of at least
    two) to [out_channels] channels at the same batch size and extents; it
    raises on any other channel count, on an input of height or width 0,
    and, built without output channels, on every input. *)
Theorem conv_bn_relu_domain sd name in_channels out_channels x :
  norm_ready sd x ->
  let block := conv_bn_relu sd name in_channels out_channels in
  (1 <= in_channels /\ 1 <= out_channels /\
   dimC x = in_channels /\ 1 <= dimH x /\ 1 <= dimW x ->
   exists y, nn.forward block x = Some y /\
             shape y = (dimN x, out_channels, dimH x, dimW x)) /\
  (dimC x <> in_channels \/ out_channels = 0 \/ dimH x = 0 \/ dimW x = 0 ->
   nn.forward block x = None).
Proof.
  intros Hn block. split.
  - intros (Hin & Hout & HC & Hh & Hw).
    pose proof (shape_has_shape x) as Hx. rewrite HC in Hx.
    destruct (conv_bn_relu_shape sd name _ out_channels x _ _ _ Hx Hh Hw Hin Hout)
      as (y & Hy & Sy).
    { apply (norm_ready_ready sd x); [exact Hn | reflexivity | exact Hh | exact Hw]. }
    exists y. auto.
  - intros [H | [H | H]].
    + now apply conv_bn_relu_channel_mismatch.
    + unfold block. rewrite H. apply conv_bn_relu_no_output.
    + now apply conv_bn_relu_empty.
Qed.

Lemma conv_bn_relu_domain_witness :
  let x := ones 2 3 5 9 in
  let block := conv_bn_relu sd0 "" 3 32 in
  (1 <= 3 /\ 1 <= 32 /\ 3 = 3 /\ 1 <= 5 /\ 1 <= 9) /\
  (1 <= 3 /\ 1 <= 32 /\ 3 = 3 /\ 1 <= 5 /\ 1 <= 9 ->
   exists y, nn.forward block x = Some y /\ shape y = (2, 32, 5, 9)) /\
  (3 <> 3 \/ 32 = 0 \/ 5 = 0 \/ 9 = 0 -> nn.forward block x = None).
Proof.
  split; [lia |].
  apply (conv_bn_relu_domain sd0 "" 3 32 (ones 2 3 5 9)). right. simpl. lia.
Defined.
